(** * blutil: the BL600 serial protocol driver, embedded in Rocq

    A shallow embedding of [blutil.py]: the AT command writer and its
    response classification ([BLDevice.writecmd]), the chunked upload
    ([BLDevice.upload], [chunks]), [BLDevice.run], [BLDevice.format], the
    include preprocessor ([BLDevice.do_include]) and the device file name
    normalisation ([get_devicename]).

    Conventions of the embedding:
    - a Python [bytes] value is a [list byte]; a Python [str] is the list of
      its Unicode code points ([list N]);
    - the serial port, the clock, and standard output are fields of an
      explicit [World]; every method is a function from worlds to an outcome
      and a world, so that what was written before an exception stays
      observable;
    - Python exceptions are outcomes ([Raise]); each [RuntimeError] raise
      site keeps the values its message is formatted from;
    - the serial transport itself works: reads and writes raise no
      [SerialException]; times are whole milliseconds;
    - [os.path] is the POSIX flavour ([posixpath]). *)

From Stdlib Require Import Strings.String Strings.Byte Strings.Ascii.
From Stdlib Require Import List NArith ZArith Bool Lia.
From Stdlib Require DecimalString Decimal.
From Equations Require Import Equations.
Import ListNotations.

Set Implicit Arguments.
Local Open Scope N_scope.

(** ** Python values *)

Module Py.

Definition str := list N.
Definition bytes := list byte.

(** A string literal of the source, as code points. *)
Definition lit (s : string) : str := List.map Byte.to_N (list_byte_of_string s).

Definition LF : N := 10.
Definition CR : N := 13.
Definition TAB : N := 9.
Definition QUOTE : N := 34.
Definition SLASH : N := 47.
Definition DOT : N := 46.

Section Sequences.
Variable A : Type.
Variable eqb : A -> A -> bool.

(** [s.startswith(p)] *)
Fixpoint startswith (s p : list A) : bool :=
  match p, s with
  | [], _ => true
  | _ :: _, [] => false
  | x :: p', y :: s' => eqb x y && startswith s' p'
  end.

(** [s.endswith(p)] *)
Definition endswith (s p : list A) : bool := startswith (rev s) (rev p).

(** [a == b] on sequences *)
Fixpoint seq_eqb (a b : list A) : bool :=
  match a, b with
  | [], [] => true
  | x :: a', y :: b' => eqb x y && seq_eqb a' b'
  | _, _ => false
  end.

(** [p in s] *)
Fixpoint contains (s p : list A) : bool :=
  startswith s p || match s with [] => false | _ :: s' => contains s' p end.

(** [s[:-k]] *)
Definition drop_last (k : nat) (s : list A) : list A :=
  firstn (length s - k) s.

(** [s[-k:]] for [k > 0] *)
Definition take_last (k : nat) (s : list A) : list A :=
  skipn (length s - k) s.

(** The part of [s] before the first element satisfying [p]. *)
Fixpoint take_until (p : A -> bool) (s : list A) : list A :=
  match s with
  | [] => []
  | x :: s' => if p x then [] else x :: take_until p s'
  end.

Fixpoint drop_while (p : A -> bool) (s : list A) : list A :=
  match s with
  | [] => []
  | x :: s' => if p x then drop_while p s' else s
  end.

(** [s.split(c)] for a one-character separator: never empty. *)
Fixpoint split (c : A) (s : list A) : list (list A) :=
  match s with
  | [] => [[]]
  | x :: s' =>
      if eqb x c then [] :: split c s'
      else match split c s' with
           | [] => [[x]]
           | h :: t => (x :: h) :: t
           end
  end.
End Sequences.

Definition byte_seq_eqb : bytes -> bytes -> bool := seq_eqb Byte.eqb.
Definition str_eqb : str -> str -> bool := seq_eqb N.eqb.

(** [str.isspace] on one code point (CPython's [_PyUnicode_IsWhitespace]);
    the same set is the regular expression class [\s] on [str] patterns. *)
Definition isspace (c : N) : bool :=
  ((9 <=? c) && (c <=? 13)) || ((28 <=? c) && (c <=? 32))
  || (c =? 133) || (c =? 160) || (c =? 5760)
  || ((8192 <=? c) && (c <=? 8202))
  || (c =? 8232) || (c =? 8233) || (c =? 8239) || (c =? 8287) || (c =? 12288).

(** [s.lstrip()], [s.rstrip()], [s.strip()] *)
Definition lstrip (s : str) : str := drop_while isspace s.
Definition rstrip (s : str) : str := rev (drop_while isspace (rev s)).
Definition strip (s : str) : str := rstrip (lstrip s).

(** [s.rstrip(c)] for a one-character argument *)
Definition rstrip_char (c : N) (s : str) : str :=
  rev (drop_while (N.eqb c) (rev s)).

(** ** Codecs *)

Definition is_ascii (b : byte) : bool := Byte.to_N b <? 128.

(** [str(b, "ascii")]: [None] stands for [UnicodeDecodeError]. *)
Definition decode_ascii (b : bytes) : option str :=
  if forallb is_ascii b then Some (List.map Byte.to_N b) else None.

(** [bytearray(s, "ascii")]: [None] stands for [UnicodeEncodeError]. *)
Fixpoint encode_ascii (s : str) : option bytes :=
  match s with
  | [] => Some []
  | c :: s' =>
      if c <? 128 then
        match Byte.of_N c, encode_ascii s' with
        | Some b, Some r => Some (b :: r)
        | _, _ => None
        end
      else None
  end.

Definition cont (b : byte) : bool :=
  let n := Byte.to_N b in (128 <=? n) && (n <=? 191).

Definition between (lo hi : N) (b : byte) : bool :=
  let n := Byte.to_N b in (lo <=? n) && (n <=? hi).

Definition low6 (b : byte) : N := Byte.to_N b - 128.

(** [b.decode()], the strict UTF-8 codec: overlong forms, surrogates and
    code points above U+10FFFF are rejected.  [None] stands for
    [UnicodeDecodeError]. *)
Fixpoint decode_utf8 (b : bytes) : option str :=
  match b with
  | [] => Some []
  | b0 :: r0 =>
      let n0 := Byte.to_N b0 in
      if n0 <? 128 then option_map (cons n0) (decode_utf8 r0)
      else match r0 with
      | [] => None
      | b1 :: r1 =>
          if between 194 223 b0 then
            if cont b1
            then option_map (cons ((n0 - 192) * 64 + low6 b1)) (decode_utf8 r1)
            else None
          else match r1 with
          | [] => None
          | b2 :: r2 =>
              if between 224 239 b0 then
                if between (if n0 =? 224 then 160 else 128)
                           (if n0 =? 237 then 159 else 191) b1 && cont b2
                then option_map
                       (cons ((n0 - 224) * 4096 + low6 b1 * 64 + low6 b2))
                       (decode_utf8 r2)
                else None
              else match r2 with
              | [] => None
              | b3 :: r3 =>
                  if between 240 244 b0
                     && between (if n0 =? 240 then 144 else 128)
                                (if n0 =? 244 then 143 else 191) b1
                     && cont b2 && cont b3
                  then option_map
                         (cons ((n0 - 240) * 262144 + low6 b1 * 4096
                                + low6 b2 * 64 + low6 b3))
                         (decode_utf8 r3)
                  else None
              end
          end
      end
  end.

(** ["%02x" % x] for a byte [x]: two lower-case hexadecimal digits. *)
Definition hex_digit (n : N) : N := if n <? 10 then 48 + n else 87 + n.
Definition hex02 (b : byte) : str :=
  let n := Byte.to_N b in [hex_digit (n / 16); hex_digit (n mod 16)].

End Py.

(** ** [os.path] (POSIX) *)

Module os_path.
Import Py.

(** [p.rfind(c)]: the index of the last [c] in [p], or [-1]. *)
Definition rfind (c : N) (p : str) : Z :=
  let after := take_until (N.eqb c) (rev p) in
  if (length after =? length p)%nat then (-1)%Z
  else Z.of_nat (length p - length after - 1).

(** [os.path.split(p)]: the tail is what follows the last slash; the head
    loses its trailing slashes unless it consists of slashes only. *)
Definition split (p : str) : str * str :=
  let i := Z.to_nat (rfind SLASH p + 1) in
  let head := firstn i p in
  let tail := skipn i p in
  let head := if forallb (N.eqb SLASH) head then head
              else rstrip_char SLASH head in
  (head, tail).

Definition dirname (p : str) : str := fst (split p).

(** [os.path.splitext(p)]: the extension starts at the last dot of the last
    component, provided some earlier character of that component is not a
    dot (the source's loop over the leading dots). *)
Definition splitext (p : str) : str * str :=
  let sepIndex := rfind SLASH p in
  let dotIndex := rfind DOT p in
  if (sepIndex <? dotIndex)%Z then
    let filenameIndex := Z.to_nat (sepIndex + 1) in
    let d := Z.to_nat dotIndex in
    if existsb (fun c => negb (c =? DOT)) (skipn filenameIndex (firstn d p))
    then (firstn d p, skipn d p)
    else (p, [])
  else (p, []).

(** [os.path.join(a, b)] *)
Definition join (a b : str) : str :=
  if startswith N.eqb b [SLASH] then b
  else if (length a =? 0)%nat || endswith N.eqb a [SLASH] then a ++ b
  else a ++ [SLASH] ++ b.

End os_path.

(** ** The include directive pattern

    The pattern of [do_include]: at the start of a line the marker
    [#include], then [\s+], then a double quote, group 1 (a greedy run of
    [.]), a double quote and [$], compiled with [re.MULTILINE].  With [MULTILINE], [^]
    holds at the start of the text and after every line feed, [$] at the
    end of the text and before every line feed; [.] is any character but the
    line feed, and [\s] is [Py.isspace], line feeds included. *)

Module include_re.
Import Py.

Definition MARK : str := lit "#include".

Record Match := { m_start : nat; m_end : nat; group1 : str }.

(** A match that starts at the head of [s].  Backtracking has one way to
    succeed: [\s+] must take the whole run of white space, since the
    quote that follows is not white space; group 1 cannot leave its line, and
    the closing quote must be the last character of that line for [$] to
    hold.  The result is the length of the match and group 1. *)
Definition match_here (s : str) : option (nat * str) :=
  if startswith N.eqb s MARK then
    let r := skipn (length MARK) s in
    let r' := drop_while isspace r in
    let ws := (length r - length r')%nat in
    match ws, r' with
    | S _, q :: body =>
        if q =? QUOTE then
          let seg := take_until (N.eqb LF) body in
          match rev seg with
          | q' :: g =>
              if q' =? QUOTE
              then Some ((length MARK + ws + 1 + length seg)%nat, rev g)
              else None
          | [] => None
          end
        else None
    | _, _ => None
    end
  else None.

(** [pattern.search(file)]: the leftmost match.  [i] is the index of the
    head of [s] in the text, [bol] tells whether [^] holds there. *)
Fixpoint search_from (i : nat) (bol : bool) (s : str) : option Match :=
  match s with
  | [] => None
  | c :: s' =>
      match (if bol then match_here s else None) with
      | Some (len, g) =>
          Some {| m_start := i; m_end := (i + len)%nat; group1 := g |}
      | None => search_from (S i) (c =? LF) s'
      end
  end.

Definition search (file : str) : option Match := search_from 0 true file.

(** [file.replace] of the marker by the empty string: [skip] counts the characters of a
    marker still to be dropped. *)
Fixpoint remove_marker (skip : nat) (s : str) : str :=
  match s with
  | [] => []
  | c :: s' =>
      match skip with
      | S k => remove_marker k s'
      | O => if startswith N.eqb s MARK
             then remove_marker (length MARK - 1) s'
             else c :: remove_marker 0 s'
      end
  end.

End include_re.

(** ** [get_devicename] and [chunks] *)

Import Py.

(** The character class of [get_devicename]'s [re.sub]: colon, asterisk,
    question mark, double quote, angle brackets and vertical bar. *)
Definition reserved (c : N) : bool :=
  existsb (N.eqb c) (QUOTE :: lit ":*?<>|").

(** [def get_devicename(filepath)] *)
Definition get_devicename (filepath : str) : str :=
  let filename := snd (os_path.split filepath) in
  let filename := hd [] (split N.eqb DOT filename) in
  firstn 24 (filter (fun c => negb (reserved c)) filename).

(** [def to_uwc(filepath)] *)
Definition to_uwc (filepath : str) : str :=
  fst (os_path.splitext filepath) ++ lit ".uwc".

(** A value together with the equation that names it, for the termination
    argument of [chunks]. *)
Definition inspect {A} (a : A) : {b : A | a = b} := exist _ a eq_refl.

(** [def chunks(somefile, chunklen)]: the file object is the list of the
    bytes not read yet; [somefile.read(chunklen)] takes the first
    [chunklen] of them, and the loop ends on an empty read.  The
    generator's values are collected in a list. *)
Equations? chunks (somefile : bytes) (chunklen : nat) : list bytes
  by wf (length somefile) lt :=
  chunks somefile chunklen with inspect (firstn chunklen somefile) => {
    | exist _ [] _ => [];
    | exist _ (b :: chunk) _ =>
        (b :: chunk) :: chunks (skipn chunklen somefile) chunklen }.
Proof.
  destruct chunklen as [|n]; [discriminate|].
  destruct somefile as [|x l]; [discriminate|].
  simpl. rewrite length_skipn. lia.
Qed.

(** ** Outcomes, the world and the environment *)

(** The messages of the [RuntimeError]s the program raises, one constructor
    per raise site, holding the values the message is formatted from. *)
Inductive message : Type :=
| NoResponse (command : str)
    (** Got no response to command [repr(command)]. Not connected or not in
        interactive mode? *)
| DeviceError (errorcode desc : str)
    (** BL600 returned error [errorcode]: [desc] *)
| Unexpected (args : str) (response : bytes)
    (** Got unexpected/error response to command 'AT[args]': [response] *)
| IncludedFileMissing (include_path : str).
    (** Included file [include_path] does not exist *)

Inductive exn : Type :=
| RuntimeError (m : message)
| UnicodeDecodeError
| UnicodeEncodeError
| OSError (path : str)
| EvalError
| IndexError
| RecursionError.

(** The outcome of a call: a value, an exception, or [Stuck] when the
    recorded clock has no reading left for a call of [time.time()]. *)
Inductive result (A : Type) : Type :=
| Ok (a : A)
| Raise (e : exn)
| Stuck.
Arguments Raise {A} e.
Arguments Stuck {A}.

(** What the process cannot see in advance and what it leaves behind.
    - [rx]: the bursts of bytes the device sends, in order; a read takes
      from the first burst, an empty burst (or none left) is a read that
      times out with nothing;
    - [tx]: the byte frames written to the port, oldest first;
    - [clock]: the successive readings of [time.time()], in milliseconds;
    - [stdout]: the texts printed, one per call of [print]. *)
Record World : Type := {
  rx : list bytes;
  tx : list bytes;
  clock : list Z;
  stdout : list str
}.

(** What the process reads from its surroundings without changing it. *)
Record Env : Type := {
  expanduser : str -> str;            (** [os.path.expanduser] *)
  abspath : str -> str;               (** [os.path.abspath] *)
  path_exists : str -> bool;          (** [os.path.exists] *)
  read_text : str -> option str;      (** [open(p, 'r').read()] *)
  read_binary : str -> option bytes;  (** [open(p, 'rb')], whole contents *)
  codes_csv : option (list str);      (** the lines of [codes.csv] *)
  eval_str : str -> option str        (** [str(eval(src))], [None] if it raises *)
}.

Definition M (A : Type) : Type := World -> result A * World.

Definition ret {A} (a : A) : M A := fun w => (Ok a, w).

Definition bind {A B} (m : M A) (k : A -> M B) : M B :=
  fun w =>
    match m w with
    | (Ok a, w') => k a w'
    | (Raise e, w') => (Raise e, w')
    | (Stuck, w') => (Stuck, w')
    end.

Definition raise {A} (e : exn) : M A := fun w => (Raise e, w).

(** A pure computation that may raise. *)
Definition lift {A} (r : result A) : M A := fun w => (r, w).

Definition or_raise {A} (e : exn) (o : option A) : result A :=
  match o with Some a => Ok a | None => Raise e end.

Declare Scope py_scope.
Delimit Scope py_scope with py.
Notation "x <- m ;; k" := (bind m (fun x => k))
  (at level 61, m at next level, right associativity) : py_scope.
Notation "m ;; k" := (bind m (fun _ => k))
  (at level 61, right associativity) : py_scope.
Local Open Scope py_scope.

(** [for x in xs: body(x)] *)
Fixpoint for_each {A} (xs : list A) (body : A -> M unit) : M unit :=
  match xs with
  | [] => ret tt
  | x :: xs' => body x ;; for_each xs' body
  end.

(** *** The serial port, the clock and standard output *)

(** [port.read(n)] on the pending bursts. *)
Definition serial_read (n : nat) (pending : list bytes) : bytes * list bytes :=
  match pending with
  | [] => ([], [])
  | b :: rest =>
      (firstn n b,
       match skipn n b with [] => rest | b' => b' :: rest end)
  end.

Definition port_read (n : nat) : M bytes :=
  fun w =>
    let (b, pending) := serial_read n (rx w) in
    (Ok b, {| rx := pending; tx := tx w; clock := clock w; stdout := stdout w |}).

Definition port_write (frame : bytes) : M unit :=
  fun w =>
    (Ok tt, {| rx := rx w; tx := tx w ++ [frame]; clock := clock w;
               stdout := stdout w |}).

Definition print (text : str) : M unit :=
  fun w =>
    (Ok tt, {| rx := rx w; tx := tx w; clock := clock w;
               stdout := stdout w ++ [text] |}).

(** [time.sleep]: its effect on later readings is part of [clock]. *)
Definition sleep (ms : Z) : M unit := ret tt.

(** The terminator of a success reply and the prefix of an error reply. *)
Definition OK_TERM : bytes := [x30; x30; x0d].
Definition ERR_PREFIX : bytes := [x0a; x30; x31; x09].

Definition quoted (s : str) : str := [QUOTE] ++ s ++ [QUOTE].

(** ** The device driver *)

Section BLDevice.
Variable env : Env.

(** [def get_errordesc(code)]: the first line of [codes.csv] containing
    the decimal text of the code, read as hexadecimal by [eval]; the
    description is what stands between the first two double quotes. *)
Fixpoint errordesc_scan (lines : list str) (code : str) : result str :=
  match lines with
  | [] => Ok (lit "(no description available)")
  | line :: rest =>
      match eval_str env (lit "0x" ++ code) with
      | None => Raise EvalError
      | Some number =>
          if contains N.eqb line number then
            match split N.eqb QUOTE line with
            | _ :: desc :: _ => Ok desc
            | _ => Raise IndexError
            end
          else errordesc_scan rest code
      end
  end.

Definition get_errordesc (code : str) : result str :=
  match codes_csv env with
  | None => Raise (OSError (lit "codes.csv"))
  | Some lines => errordesc_scan lines code
  end.

(** The loop of [writecmd]:
    [while not response.endswith(b"00\r") and time.time() < start + timeout:
       response += self.port.read(1)].
    The clock is read only when the terminator is absent.  The result is
    what was accumulated ([None] when the clock has no reading left) and
    what remains of the clock and of the pending bursts. *)
Fixpoint read_response (clk : list Z) (pending : list bytes) (deadline : Z)
         (response : bytes) : option bytes * list Z * list bytes :=
  if endswith Byte.eqb response OK_TERM then (Some response, clk, pending)
  else
    match clk with
    | [] => (None, [], pending)
    | now :: clk' =>
        if (now <? deadline)%Z then
          let (b, pending') := serial_read 1 pending in
          read_response clk' pending' deadline (response ++ b)
        else (Some response, clk', pending)
    end.

(** [start = time.time()] followed by the loop. *)
Definition read_until (timeout : Z) : M bytes :=
  fun w =>
    match clock w with
    | [] => (Stuck, w)
    | start :: clk =>
        match read_response clk (rx w) (start + timeout)%Z [] with
        | (r, clk', pending) =>
            (match r with Some response => Ok response | None => Stuck end,
             {| rx := pending; tx := tx w; clock := clk';
                stdout := stdout w |})
        end
    end.

(** The AT frame of a command tail. *)
Definition at_command (args : str) : str :=
  lit "AT" ++ (if startswith N.eqb args (lit "+") then [] else lit " ")
  ++ args ++ [CR].

(** What [writecmd] does with the accumulated response. *)
Definition classify (args command : str) (response : bytes) : result str :=
  if endswith Byte.eqb response OK_TERM then
    match decode_ascii response with
    | Some s => Ok (strip (drop_last 3 s))
    | None => Raise UnicodeDecodeError
    end
  else if (length response =? 0)%nat then
    Raise (RuntimeError (NoResponse command))
  else if (4 <? length response)%nat
          && byte_seq_eqb (firstn 4 response) ERR_PREFIX then
    match decode_utf8 (skipn 4 response) with
    | Some s =>
        let errorcode := drop_last 1 s in
        match get_errordesc errorcode with
        | Ok desc => Raise (RuntimeError (DeviceError errorcode desc))
        | Raise e => Raise e
        | Stuck => Stuck
        end
    | None => Raise UnicodeDecodeError
    end
  else Raise (RuntimeError (Unexpected args response)).

(** [def writecmd(self, args, expect_response=True, timeout=0.5)];
    [timeout] is in milliseconds, the result [None] is Python's [None]. *)
Definition writecmd (args : str) (expect_response : bool) (timeout : Z)
  : M (option str) :=
  let command := at_command args in
  frame <- lift (or_raise UnicodeEncodeError (encode_ascii command)) ;;
  port_write frame ;;
  if negb expect_response then ret None
  else
    response <- read_until timeout ;;
    payload <- lift (classify args command response) ;;
    ret (Some payload).

(** [def read_param(self, param)], [param] given as its decimal text. *)
Definition read_param (param : str) : M str :=
  r <- writecmd (lit "I " ++ param) true 500 ;;
  ret (last (split N.eqb TAB (match r with Some s => s | None => [] end)) []).

(** [def list(self)] *)
Definition list_files : M unit :=
  print (lit "Listing files...") ;;
  output <- writecmd (lit "+DIR") true 500 ;;
  print (match output with Some s => s | None => lit "None" end).

(** [def delete(self, filename)] *)
Definition delete (filename : str) : M unit :=
  let filename := get_devicename filename in
  print (lit "Removing " ++ filename ++ lit "...") ;;
  writecmd (lit "+DEL " ++ quoted filename) true 500 ;;
  print (lit "Deleted.").

(** The path [upload] reads: the argument made absolute, with the
    extension [.uwc] in place of any other. *)
Definition upload_path (filepath : str) : str :=
  let filepath := expanduser env filepath in
  let filepath := abspath env filepath in
  let parts := os_path.splitext filepath in
  if negb (str_eqb (snd parts) (lit ".uwc"))
  then fst parts ++ lit ".uwc" else filepath.

(** [def upload(self, filepath)] *)
Definition upload (filepath : str) : M unit :=
  let filepath := upload_path filepath in
  let devicename := get_devicename filepath in
  print (lit "Uploading " ++ filepath ++ lit " as " ++ devicename) ;;
  writecmd (lit "+DEL " ++ quoted devicename ++ lit " +") true 500 ;;
  writecmd (lit "+FOW " ++ quoted devicename) true 500 ;;
  f <- lift (or_raise (OSError filepath) (read_binary env filepath)) ;;
  for_each (chunks f 16)
    (fun line =>
       let row := concat (List.map hex02 line) in
       writecmd (lit "+FWRH " ++ quoted row) true 500 ;; ret tt) ;;
  writecmd (lit "+FCL") true 500 ;;
  print (lit "Upload success").

(** What [run] does with the bytes of its direct read: the [if] chain on
    [output] that ends the method. *)
Definition report_output (output : bytes) : M unit :=
  if (0 <? length output)%nat then
    if (3 <=? length output)%nat
       && byte_seq_eqb (take_last 3 output) OK_TERM then
      (if (3 <? length output)%nat then
         text <- lift (or_raise UnicodeDecodeError
                         (decode_utf8 (drop_last 3 output))) ;;
         print (lit "Output:" ++ [LF] ++ text)
       else ret tt) ;;
      print (lit "Program completed successfully.")
    else if (4 <? length output)%nat
            && byte_seq_eqb (firstn 4 output) ERR_PREFIX then
      text <- lift (or_raise UnicodeDecodeError
                      (decode_utf8 (skipn 4 output))) ;;
      let errorcode := drop_last 1 text in
      desc <- lift (get_errordesc errorcode) ;;
      print (lit "Error " ++ errorcode ++ lit ": " ++ desc)
    else if negb (byte_seq_eqb output [x0a; x30; x30]) then
      text <- lift (or_raise UnicodeDecodeError (decode_utf8 output)) ;;
      print (lit "Immediate output:" ++ [LF] ++ text)
    else ret tt
  else print (lit "No immediate output, program probably running...").

(** [def run(self, filepath)] *)
Definition run (filepath : str) : M unit :=
  let devicename := get_devicename filepath in
  writecmd [] true 500 ;;
  print (lit "Running " ++ devicename ++ lit "...") ;;
  writecmd (lit "+RUN " ++ quoted devicename) false 500 ;;
  output <- port_read 1024 ;;
  report_output output.

(** [def format(self)] up to its last statement. *)
Definition format_steps : M unit :=
  print (lit "Formatting BL600...") ;;
  writecmd (lit "Z") true 5000 ;;
  writecmd [] true 500 ;;
  writecmd (lit "&F 1") false 500 ;;
  sleep 200 ;;
  port_read 1024 ;;
  print (lit "Format complete. Reconnecting...").

(** [def format(self)] *)
Definition format : M unit :=
  format_steps ;;
  writecmd [] true 500 ;;
  ret tt.

(** [def do_include(self, file, dirname)].  [depth] is the number of
    nested calls the interpreter's stack still allows; both recursive
    calls are one frame below their caller. *)
Fixpoint do_include (depth : nat) (file dirname : str) : result str :=
  match include_re.search file with
  | None => Ok file
  | Some m =>
      let include_path := os_path.join dirname (include_re.group1 m) in
      let include_path := abspath env include_path in
      if negb (path_exists env include_path) then
        Raise (RuntimeError (IncludedFileMissing include_path))
      else
        match read_text env include_path with
        | None => Raise (OSError include_path)
        | Some file_data =>
            match depth with
            | O => Raise RecursionError
            | S depth' =>
                let include_dirname := os_path.dirname include_path in
                match do_include depth' file_data include_dirname with
                | Ok file_data =>
                    let file :=
                      firstn (include_re.m_start m) file ++ [LF]
                      ++ file_data ++ [LF]
                      ++ skipn (include_re.m_end m) file in
                    match do_include depth' file dirname with
                    | Ok file => Ok (include_re.remove_marker 0 file)
                    | other => other
                    end
                | other => other
                end
            end
        end
  end.
End BLDevice.

(** ** Identifying the module *)

(** [s.replace(a, b)] for one-character [a] and [b]. *)
Definition replace_char (a b : N) (s : str) : str :=
  List.map (fun c => if c =? a then b else c) s.

Section Identify.
Variable env : Env.

(** [def detect_model(self)]: the result is the value the method stores in
    [self.model]. *)
Definition detect_model : M str :=
  model <- read_param env (lit "0") ;;
  revision <- read_param env (lit "13") ;;
  print (lit "Detected model " ++ model ++ lit " " ++ revision) ;;
  ret (model ++ lit "_" ++ replace_char 32 95 revision).
End Identify.

(** ** Reference definitions, stated from the documentation *)

(** The name the documentation of [get_devicename] describes: the base
    name without its extension, cleaned and capped. *)
Definition name_without_extension (filepath : str) : str :=
  let base := snd (os_path.split filepath) in
  firstn 24 (filter (fun c => negb (reserved c)) (fst (os_path.splitext base))).




(** The value of a hexadecimal digit, and the bytes a text of such digits
    stands for, two digits per byte. *)
Definition hex_value (c : N) : option N :=
  if (48 <=? c) && (c <=? 57) then Some (c - 48)
  else if (97 <=? c) && (c <=? 102) then Some (c - 87)
  else if (65 <=? c) && (c <=? 70) then Some (c - 55)
  else None.



(** A line that consists of the include marker and a quoted path, with or
    without blanks between them, and the documents that have such a line
    (lines end at line feeds). *)
Definition include_line (line : str) : bool :=
  startswith N.eqb line include_re.MARK
  && match drop_while isspace (skipn (length include_re.MARK) line) with
     | q :: rest =>
         (q =? QUOTE)
         && match rev rest with
            | q' :: _ => q' =? QUOTE
            | [] => false
            end
     | [] => false
     end.

Definition has_include_line (file : str) : bool :=
  existsb include_line (split N.eqb LF file).

(** An include directive as the pattern of [do_include] reads it: at the
    start of a line the marker, then white space that may hold line
    breaks, then a quoted text that ends its line. *)
Definition directive_at (file : str) : Prop :=
  exists before ws path after,
    file = before ++ include_re.MARK ++ ws ++ [QUOTE] ++ path ++ [QUOTE] ++ after
    /\ (before = [] \/ exists b, before = b ++ [LF])
    /\ ws <> [] /\ forallb isspace ws = true
    /\ forallb (fun c => negb (LF =? c)) path = true
    /\ (after = [] \/ exists a, after = LF :: a).

(** [issues m cmds]: whatever the outcome of [m], the frames it has written
    are those of the first [k] command tails of [cmds], in order, and of
    all of them when [m] returns. *)
Definition issues {A : Type} (m : M A) (cmds : list str) : Prop :=
  forall (w w' : World) (r : result A),
    m w = (r, w') ->
    exists (k : nat) (frames : list bytes),
      (k <= length cmds)%nat
      /\ Forall2 (fun c f => encode_ascii (at_command c) = Some f)
                 (firstn k cmds) frames
      /\ tx w' = tx w ++ frames
      /\ (forall a, r = Ok a -> k = length cmds).

(** The digits of ["%02x"]: [0] to [9] and [a] to [f]. *)
Definition is_hex_lower (c : N) : bool :=
  ((48 <=? c) && (c <=? 57)) || ((97 <=? c) && (c <=? 102)).

(** ** Sample surroundings, for concrete runs *)

(** [str(eval(src))] when [src] is a plain hexadecimal literal: its value in
    decimal.  On [0x] alone and on a digit that is not hexadecimal, [eval]
    raises a [SyntaxError]; this sample evaluator lets every other source
    raise as well. *)
Fixpoint hex_number (acc : N) (digits : str) : option N :=
  match digits with
  | [] => Some acc
  | d :: ds =>
      match hex_value d with
      | Some v => hex_number (16 * acc + v) ds
      | None => None
      end
  end.

Definition decimal (n : N) : str :=
  lit (DecimalString.NilEmpty.string_of_uint (N.to_uint n)).

Definition eval_hex_literal (src : str) : option str :=
  match src with
  | 48 :: 120 :: d :: ds => option_map decimal (hex_number 0 (d :: ds))
  | _ => None
  end.

(** A directory with one compiled file of twenty bytes and one source
    file; [codes.csv] has two entries. *)
Definition sample_artifact : bytes :=
  [x01; x02; x03; x04; x05; x06; x07; x08; x09; x0a;
   x0b; x0c; x0d; x0e; x0f; x10; xa1; xb2; xc3; xff].

Definition sample_env : Env := {|
  expanduser := fun p => p;
  abspath := fun p => p;
  path_exists := fun p => str_eqb p (lit "/src/lib.sb");
  read_text := fun p =>
    if str_eqb p (lit "/src/lib.sb") then Some (lit "DIM x") else None;
  read_binary := fun p =>
    if str_eqb p (lit "/src/blink.uwc") then Some sample_artifact
    else if str_eqb p (lit "/src/empty.uwc") then Some [] else None;
  codes_csv := Some [lit "6161," ++ quoted (lit "File not found") ++ [LF];
                     lit "6162," ++ quoted (lit "File exists") ++ [LF]];
  eval_str := eval_hex_literal
|}.

(** The same surroundings with two more source files: [/src/loop.sb],
    whose only line includes the file itself, and [/src/sub/outer.sb],
    whose only line includes a file that does not exist. *)
Definition loop_source : str := lit "#include " ++ quoted (lit "loop.sb").
Definition outer_source : str := lit "#include " ++ quoted (lit "gone.sb").

Definition loop_env : Env := {|
  expanduser := expanduser sample_env;
  abspath := abspath sample_env;
  path_exists := fun p =>
    str_eqb p (lit "/src/loop.sb") || str_eqb p (lit "/src/sub/outer.sb")
    || path_exists sample_env p;
  read_text := fun p =>
    if str_eqb p (lit "/src/loop.sb") then Some loop_source
    else if str_eqb p (lit "/src/sub/outer.sb") then Some outer_source
    else read_text sample_env p;
  read_binary := read_binary sample_env;
  codes_csv := codes_csv sample_env;
  eval_str := eval_str sample_env
|}.

(** The acknowledgement of a command, a clock that advances by [step]
    milliseconds per reading, and the worlds in which the device sends
    [replies]: one with a reading every ten milliseconds, one with a
    reading every quarter of a second. *)
Definition ACK : bytes := [x0a; x30; x30; x0d].

Definition ticking (step : Z) (n : nat) : list Z :=
  List.map (fun k => (step * Z.of_nat k)%Z) (seq 0 n).

Definition world_of (replies : list bytes) : World :=
  {| rx := replies; tx := []; clock := ticking 10 200; stdout := [] |}.

Definition slow_world_of (replies : list bytes) : World :=
  {| rx := replies; tx := []; clock := ticking 250 200; stdout := [] |}.

(** A device that acknowledges the next [n] commands: its next [n] bursts
    are bare acknowledgements, and the clock has the five readings each
    command takes (one at its start, one before each of the four bytes
    read), all [5 * n] of them less than half a second apart. *)
Definition acknowledges (n : nat) (w : World) : Prop :=
  (exists rest, rx w = repeat ACK n ++ rest)
  /\ (5 * n <= length (clock w))%nat
  /\ exists lo, Forall (fun t => (lo <= t < lo + 500)%Z)
                       (firstn (5 * n) (clock w)).

(** * Properties *)

(** ** Sequences *)

Section SequenceFacts.
Variable A : Type.
Implicit Types (s : list A) (p : A -> bool).

Lemma take_until_prefix p s :
  take_until p s = firstn (length (take_until p s)) s.
Proof.
  induction s as [|x s IH]; simpl; [reflexivity|].
  destruct (p x); simpl; [reflexivity|]. now rewrite <- IH.
Qed.

Lemma take_until_none p s :
  forallb (fun x => negb (p x)) s = true -> take_until p s = s.
Proof.
  induction s as [|x s IH]; simpl; [reflexivity|].
  destruct (p x); simpl; [discriminate|]. intros H. now rewrite IH.
Qed.

Lemma take_until_clean p s :
  forallb (fun x => negb (p x)) (take_until p s) = true.
Proof.
  induction s as [|x s IH]; simpl; [reflexivity|].
  destruct (p x) eqn:E; simpl; [reflexivity|]. now rewrite E.
Qed.

Lemma take_until_length p s :
  (length (take_until p s) <= length s)%nat.
Proof.
  induction s as [|x s IH]; simpl; [lia|]. destruct (p x); simpl; lia.
Qed.

(** What follows a stop of [take_until] starts with a stopping element. *)
Lemma take_until_stop p s :
  (length (take_until p s) < length s)%nat ->
  exists x rest, s = take_until p s ++ x :: rest /\ p x = true.
Proof.
  induction s as [|x s IH]; simpl; [lia|].
  destruct (p x) eqn:E; simpl.
  - intros _. now exists x, s.
  - intros H. destruct IH as (y & rest & Hs & Hy); [lia|].
    exists y, rest. split; [now rewrite <- Hs | exact Hy].
Qed.

Lemma forallb_firstn (f : A -> bool) n s :
  forallb f s = true -> forallb f (firstn n s) = true.
Proof.
  revert n; induction s as [|x s IH]; intros [|n]; simpl; try reflexivity.
  intros H. apply andb_true_iff in H as [Hx Hs]. now rewrite Hx, IH.
Qed.

Lemma forallb_filter_weaken (f g : A -> bool) s :
  forallb f s = true -> forallb f (filter g s) = true.
Proof.
  induction s as [|x s IH]; simpl; [reflexivity|].
  intros H. apply andb_true_iff in H as [Hx Hs].
  destruct (g x); simpl; [now rewrite Hx, IH | now apply IH].
Qed.

Lemma forallb_rev (f : A -> bool) s : forallb f (rev s) = forallb f s.
Proof.
  induction s as [|x s IH]; simpl; [reflexivity|].
  rewrite forallb_app, IH. simpl. rewrite andb_true_r. apply andb_comm.
Qed.
End SequenceFacts.

(** [s.split(c)[0]] is the part of [s] before its first [c]. *)
Lemma split_head (c : N) (s : str) :
  hd [] (split N.eqb c s) = take_until (fun x => x =? c) s.
Proof.
  induction s as [|x s IH]; simpl; [reflexivity|].
  destruct (x =? c); simpl; [reflexivity|].
  rewrite <- IH. now destruct (split N.eqb c s).
Qed.

(** ** [os.path.split] and [os.path.splitext] *)

Lemma rfind_spec (c : N) (p : str) :
  Z.to_nat (os_path.rfind c p + 1)
  = (length p - length (take_until (N.eqb c) (rev p)))%nat.
Proof.
  unfold os_path.rfind.
  pose proof (take_until_length (N.eqb c) (rev p)) as Hle.
  rewrite length_rev in Hle.
  destruct (Nat.eqb_spec (length (take_until (N.eqb c) (rev p))) (length p));
    lia.
Qed.

(** The tail of a split path is what follows its last slash. *)
Lemma split_tail (p : str) :
  snd (os_path.split p) = rev (take_until (N.eqb SLASH) (rev p)).
Proof.
  unfold os_path.split. cbn [snd]. rewrite rfind_spec.
  set (t := take_until (N.eqb SLASH) (rev p)).
  assert (Ht : t = firstn (length t) (rev p)) by apply take_until_prefix.
  rewrite Ht at 2. rewrite firstn_rev, rev_involutive. reflexivity.
Qed.

Lemma split_tail_no_slash (p : str) :
  forallb (fun c => negb (SLASH =? c)) (snd (os_path.split p)) = true.
Proof.
  rewrite split_tail, forallb_rev. apply take_until_clean.
Qed.


Lemma take_until_app_stop (A : Type) (p : A -> bool) (a b : list A) (x : A) :
  forallb (fun y => negb (p y)) a = true -> p x = true ->
  take_until p (a ++ x :: b) = a.
Proof.
  intros Ha Hx. induction a as [|y a IH]; simpl in *.
  - now rewrite Hx.
  - apply andb_true_iff in Ha as [Hy Ha].
    destruct (p y); [discriminate|]. now rewrite IH.
Qed.

(** A text whose last [c] is at index [d] splits there. *)
Lemma rfind_found (c : N) (p : str) :
  (0 <= os_path.rfind c p)%Z ->
  exists rest,
    p = firstn (Z.to_nat (os_path.rfind c p)) p ++ c :: rest.
Proof.
  unfold os_path.rfind.
  pose proof (take_until_length (N.eqb c) (rev p)) as Hle.
  rewrite length_rev in Hle.
  destruct (Nat.eqb_spec (length (take_until (N.eqb c) (rev p))) (length p))
    as [E|E]; [lia|]. intros _.
  destruct (take_until_stop (N.eqb c) (rev p)) as (x & rest & Hp & Hx).
  { rewrite length_rev. lia. }
  apply N.eqb_eq in Hx. subst x.
  set (t := take_until (N.eqb c) (rev p)) in *.
  assert (Hq : p = rev rest ++ c :: rev t).
  { rewrite <- (rev_involutive p), Hp, rev_app_distr. simpl.
    now rewrite <- app_assoc. }
  exists (rev t).
  assert (Hd : Z.to_nat (Z.of_nat (length p - length t - 1)) = length (rev rest)).
  { rewrite Nat2Z.id. rewrite Hq at 1.
    rewrite length_app. simpl. rewrite !length_rev. lia. }
  rewrite Hd. rewrite Hq at 2. rewrite firstn_app, firstn_all, Nat.sub_diag.
  simpl. rewrite app_nil_r. exact Hq.
Qed.

Lemma rfind_lower (c : N) (p : str) : (-1 <= os_path.rfind c p)%Z.
Proof.
  unfold os_path.rfind.
  destruct (length (take_until (N.eqb c) (rev p)) =? length p)%nat; lia.
Qed.

(** When the root left by [splitext] has no dot, it is the text before the
    first dot. *)
Lemma splitext_root_first_dot (p : str) :
  forallb (fun c => negb (c =? DOT)) (fst (os_path.splitext p)) = true ->
  take_until (fun c => c =? DOT) p = fst (os_path.splitext p).
Proof.
  unfold os_path.splitext.
  pose proof (rfind_lower SLASH p) as Hs.
  destruct (Z.ltb_spec (os_path.rfind SLASH p) (os_path.rfind DOT p)) as [Hlt|Hge].
  - destruct (existsb _ _); cbn [fst].
    + intros Hroot.
      destruct (@rfind_found DOT p) as (rest & Hp); [lia|].
      rewrite Hp at 1. now apply take_until_app_stop.
    + intros Hp. now apply take_until_none.
  - cbn [fst]. intros Hp. now apply take_until_none.
Qed.

(** ** The device name *)

(** C5, as stated, fails: a base name with two dots loses everything from
    its first dot on, not only its extension. *)
Lemma get_devicename_two_dots :
  get_devicename (lit "/home/u/my.prog.uwc") = lit "my"
  /\ name_without_extension (lit "/home/u/my.prog.uwc") = lit "my.prog"
  /\ get_devicename (lit "/home/u/my.prog.uwc")
     <> name_without_extension (lit "/home/u/my.prog.uwc").
Proof. vm_compute. repeat split; discriminate. Qed.

(** C5, amended: the device name is the base name of the path cut at its
    first dot, without the reserved characters, capped at 24 characters;
    when the base name without its extension has no dot left, this is the
    base name without its extension. *)
Theorem get_devicename_first_dot (filepath : str) :
  let base := snd (os_path.split filepath) in
  get_devicename filepath
  = firstn 24 (filter (fun c => negb (reserved c))
                      (take_until (fun c => c =? DOT) base))
  /\ (forallb (fun c => negb (c =? DOT)) (fst (os_path.splitext base)) = true ->
      get_devicename filepath = name_without_extension filepath).
Proof.
  cbv zeta. unfold get_devicename, name_without_extension.
  rewrite split_head. split; [reflexivity|].
  intros H. now rewrite (splitext_root_first_dot _ H).
Qed.

Lemma get_devicename_first_dot_witness :
  get_devicename (lit "/home/u/prog.uwc")
  = name_without_extension (lit "/home/u/prog.uwc").
Proof.
  apply (proj2 (get_devicename_first_dot (lit "/home/u/prog.uwc"))).
  vm_compute. reflexivity.
Defined.


(** ** The command writer *)

Section WritecmdFacts.
Variable env : Env.

Lemma decode_utf8_ascii (b : bytes) :
  forallb is_ascii b = true -> decode_utf8 b = Some (List.map Byte.to_N b).
Proof.
  induction b as [|b0 r IH]; [reflexivity|].
  cbn [forallb]. intros H. apply andb_true_iff in H as [H0 Hr].
  unfold is_ascii in H0. cbn [decode_utf8 List.map].
  rewrite H0, (IH Hr). reflexivity.
Qed.

Lemma drop_last_map (A B : Type) (f : A -> B) (k : nat) (l : list A) :
  drop_last k (List.map f l) = List.map f (drop_last k l).
Proof. unfold drop_last. now rewrite length_map, firstn_map. Qed.

(** A command that expects a response: the frame is written, the loop
    runs, and the accumulated bytes are classified. *)
Lemma writecmd_expect (args : str) (timeout : Z) (w : World) (frame : bytes) :
  encode_ascii (at_command args) = Some frame ->
  writecmd env args true timeout w
  = match read_until timeout (snd (port_write frame w)) with
    | (Ok response, w') =>
        (match classify env args (at_command args) response with
         | Ok payload => Ok (Some payload)
         | Raise e => Raise e
         | Stuck => Stuck
         end, w')
    | (Raise e, w') => (Raise e, w')
    | (Stuck, w') => (Stuck, w')
    end.
Proof.
  intros Hframe. unfold writecmd, bind, lift, ret. rewrite Hframe.
  cbn [or_raise negb port_write snd].
  destruct (read_until timeout _) as [[response|e|] w']; trivial.
  now destruct (classify env args (at_command args) response).
Qed.

(** A command that expects no response only writes its frame. *)
Lemma writecmd_no_response (args : str) (timeout : Z) (w : World) (frame : bytes) :
  encode_ascii (at_command args) = Some frame ->
  writecmd env args false timeout w = (Ok None, snd (port_write frame w)).
Proof.
  intros Hframe. unfold writecmd, bind, lift, ret. now rewrite Hframe.
Qed.

(** The loop returns as soon as the clock shows a reading that is not
    before the deadline, whatever the device sends. *)
Lemma read_response_returns (clk : list Z) (pending : list bytes)
      (deadline : Z) (response : bytes) :
  (exists now, In now clk /\ (deadline <= now)%Z) ->
  exists r, fst (fst (read_response clk pending deadline response)) = Some r.
Proof.
  revert pending response. induction clk as [|now clk IH];
    intros pending response (t & Hin & Ht); [destruct Hin|].
  cbn [read_response].
  destruct (endswith Byte.eqb response OK_TERM); [now exists response|].
  destruct (Z.ltb_spec now deadline) as [Hlt|Hge]; [|now exists response].
  destruct (serial_read 1 pending) as [b pending'].
  apply IH. exists t. split; [|exact Ht].
  destruct Hin as [->|Hin]; [lia | exact Hin].
Qed.

(** The loop does not read past the terminator. *)
Lemma read_response_stops (clk : list Z) (pending : list bytes)
      (deadline : Z) (response : bytes) :
  endswith Byte.eqb response OK_TERM = true ->
  read_response clk pending deadline response = (Some response, clk, pending).
Proof. intros H. destruct clk; cbn [read_response]; now rewrite H. Qed.

Lemma classify_success (args command : str) (response : bytes) :
  endswith Byte.eqb response OK_TERM = true ->
  forallb is_ascii response = true ->
  classify env args command response
  = Ok (strip (List.map Byte.to_N (drop_last 3 response))).
Proof.
  intros Hend Hascii. unfold classify, decode_ascii.
  now rewrite Hend, Hascii, drop_last_map.
Qed.

Lemma classify_success_only (args command : str) (response : bytes) :
  endswith Byte.eqb response OK_TERM = true ->
  classify env args command response
  = match decode_ascii response with
    | Some s => Ok (strip (drop_last 3 s))
    | None => Raise UnicodeDecodeError
    end.
Proof. intros Hend. unfold classify. now rewrite Hend. Qed.

(** C1, amended: when the bytes accumulated by the response read are
    ASCII and end in the success terminator, [writecmd] returns them
    without their last three bytes, stripped of surrounding white
    space. *)
Theorem writecmd_success (args : str) (timeout : Z) (w w' : World)
        (frame response : bytes) :
  encode_ascii (at_command args) = Some frame ->
  read_until timeout (snd (port_write frame w)) = (Ok response, w') ->
  endswith Byte.eqb response OK_TERM = true ->
  forallb is_ascii response = true ->
  writecmd env args true timeout w
  = (Ok (Some (strip (List.map Byte.to_N (drop_last 3 response)))), w').
Proof.
  intros Hframe Hread Hend Hascii.
  rewrite (writecmd_expect _ _ _ Hframe), Hread.
  now rewrite classify_success.
Qed.

(** C10, amended: once the accumulated bytes end in the success
    terminator the loop returns them, reading neither the clock nor the
    port again; [writecmd] then raises no [RuntimeError], whether or not
    the bytes begin with the error prefix, and returns the stripped
    payload when the bytes are ASCII. *)
Theorem success_before_error (args : str) (timeout : Z) (w w' : World)
        (frame response : bytes) :
  encode_ascii (at_command args) = Some frame ->
  read_until timeout (snd (port_write frame w)) = (Ok response, w') ->
  endswith Byte.eqb response OK_TERM = true ->
  (forall clk pending deadline,
      read_response clk pending deadline response
      = (Some response, clk, pending))
  /\ (forall m, fst (writecmd env args true timeout w) <> Raise (RuntimeError m))
  /\ (forallb is_ascii response = true ->
      writecmd env args true timeout w
      = (Ok (Some (strip (List.map Byte.to_N (drop_last 3 response)))), w')).
Proof.
  intros Hframe Hread Hend. split; [|split].
  - intros. now apply read_response_stops.
  - intros m. rewrite (writecmd_expect _ _ _ Hframe), Hread.
    rewrite classify_success_only by assumption.
    destruct (decode_ascii response); cbn [fst]; discriminate.
  - intros Hascii. rewrite (writecmd_expect _ _ _ Hframe), Hread.
    now rewrite classify_success.
Qed.

(** C2, amended: when the accumulated bytes are more than four, begin
    with the error prefix, do not end in the success terminator, what
    follows the prefix decodes as UTF-8, and the description lookup
    returns, [writecmd] raises the device error whose code is the decoded
    text without its last character; for ASCII bytes that is the text
    between the prefix and the final byte. *)
Theorem writecmd_device_error (args : str) (timeout : Z) (w w' : World)
        (frame response : bytes) (text desc : str) :
  encode_ascii (at_command args) = Some frame ->
  read_until timeout (snd (port_write frame w)) = (Ok response, w') ->
  (4 < length response)%nat ->
  firstn 4 response = ERR_PREFIX ->
  endswith Byte.eqb response OK_TERM = false ->
  decode_utf8 (skipn 4 response) = Some text ->
  get_errordesc env (drop_last 1 text) = Ok desc ->
  writecmd env args true timeout w
  = (Raise (RuntimeError (DeviceError (drop_last 1 text) desc)), w')
  /\ (forallb is_ascii response = true ->
      drop_last 1 text
      = List.map Byte.to_N (drop_last 1 (skipn 4 response))).
Proof.
  intros Hframe Hread Hlen Hpre Hend Htext Hdesc. split.
  - rewrite (writecmd_expect _ _ _ Hframe), Hread.
    unfold classify. rewrite Hend, Hpre.
    destruct (Nat.eqb_spec (length response) 0) as [E|_]; [lia|].
    destruct (Nat.ltb_spec 4 (length response)) as [_|E]; [|lia].
    cbn [andb]. change (byte_seq_eqb ERR_PREFIX ERR_PREFIX) with true.
    cbv iota. now rewrite Htext, Hdesc.
  - intros Hascii.
    assert (Hs : forallb is_ascii (skipn 4 response) = true).
    { rewrite <- (firstn_skipn 4 response), forallb_app in Hascii.
      now apply andb_true_iff in Hascii as [_ H]. }
    rewrite (decode_utf8_ascii _ Hs) in Htext.
    injection Htext as <-. apply drop_last_map.
Qed.
End WritecmdFacts.

(** *** Concrete replies *)

Lemma writecmd_success_witness :
  fst (writecmd sample_env (lit "I 0") true 500
         (world_of [[x0a; x31; x30; x09; x42; x4c; x0d; x0a; x30; x30; x0d]]))
  = Ok (Some (lit "10" ++ [TAB] ++ lit "BL")).
Proof.
  set (w := world_of _).
  set (frame := [x41; x54; x20; x49; x20; x30; x0d]).
  rewrite (@writecmd_success sample_env (lit "I 0") 500 w
             (snd (read_until 500 (snd (port_write frame w)))) frame
             [x0a; x31; x30; x09; x42; x4c; x0d; x0a; x30; x30; x0d]);
    vm_compute; reflexivity.
Defined.

(** C1, as stated, fails on a reply with a byte that is not ASCII: the
    accumulated bytes end in the terminator, and [writecmd] raises
    [UnicodeDecodeError] instead of returning a payload. *)
Lemma writecmd_success_not_ascii :
  let w := world_of [[xff; x30; x30; x0d]] in
  let frame := [x41; x54; x20; x0d] in
  encode_ascii (at_command []) = Some frame
  /\ fst (read_until 500 (snd (port_write frame w))) = Ok [xff; x30; x30; x0d]
  /\ endswith Byte.eqb [xff; x30; x30; x0d] OK_TERM = true
  /\ fst (writecmd sample_env [] true 500 w) = Raise UnicodeDecodeError
  /\ forall payload, fst (writecmd sample_env [] true 500 w) <> Ok payload.
Proof. vm_compute. repeat split; intros; discriminate. Qed.

Lemma success_before_error_witness :
  fst (writecmd sample_env [] true 500
         (world_of [[x0a; x30; x31; x09; x30; x30; x0d]]))
  = Ok (Some (lit "01")).
Proof.
  set (w := world_of _).
  set (frame := [x41; x54; x20; x0d]).
  assert (H := @success_before_error sample_env [] 500 w
                 (snd (read_until 500 (snd (port_write frame w)))) frame
                 [x0a; x30; x31; x09; x30; x30; x0d]
                 eq_refl eq_refl eq_refl).
  destruct H as (_ & _ & H). rewrite H; vm_compute; reflexivity.
Defined.

(** C10, as stated, fails on a reply that begins with the error prefix,
    ends in the terminator, and holds a byte that is not ASCII: it is not
    reported as a device error, and not as a success either. *)
Lemma success_before_error_not_ascii :
  let reply := [x0a; x30; x31; x09; xe9; x30; x30; x0d] in
  let w := world_of [reply] in
  let frame := [x41; x54; x20; x0d] in
  fst (read_until 500 (snd (port_write frame w))) = Ok reply
  /\ firstn 4 reply = ERR_PREFIX
  /\ endswith Byte.eqb reply OK_TERM = true
  /\ fst (writecmd sample_env [] true 500 w) = Raise UnicodeDecodeError
  /\ forall payload, fst (writecmd sample_env [] true 500 w) <> Ok payload.
Proof. vm_compute. repeat split; intros; discriminate. Qed.

Lemma writecmd_device_error_witness :
  let reply := [x0a; x30; x31; x09; x31; x38; x31; x31; x0d] in
  fst (writecmd sample_env (lit "+DEL " ++ quoted (lit "x")) true 500
         (world_of [reply]))
  = Raise (RuntimeError (DeviceError (lit "1811") (lit "File not found")))
  /\ lit "1811" = List.map Byte.to_N (drop_last 1 (skipn 4 reply)).
Proof.
  intros reply. set (w := world_of _).
  set (frame := [x41; x54; x2b; x44; x45; x4c; x20; x22; x78; x22; x0d]).
  destruct (@writecmd_device_error sample_env
              (lit "+DEL " ++ quoted (lit "x")) 500 w
              (snd (read_until 500 (snd (port_write frame w)))) frame
              reply (lit "1811" ++ [CR]) (lit "File not found")
              eq_refl eq_refl ltac:(vm_compute; lia)
              eq_refl eq_refl eq_refl eq_refl) as [H1 H2].
  split; [exact (f_equal fst H1) | exact (H2 eq_refl)].
Defined.

(** C2, as stated, fails in two ways: on a reply whose bytes after the
    error prefix are not UTF-8, [writecmd] raises [UnicodeDecodeError];
    on a reply with an empty error code, the description lookup fails on
    [eval] and its exception is what [writecmd] raises. *)
Lemma writecmd_device_error_undecodable :
  let frame := [x41; x54; x20; x0d] in
  let noise := [x0a; x30; x31; x09; xff; x0d] in
  let bare := [x0a; x30; x31; x09; x0d] in
  (fst (read_until 500 (snd (port_write frame (world_of [noise])))) = Ok noise
   /\ firstn 4 noise = ERR_PREFIX
   /\ endswith Byte.eqb noise OK_TERM = false
   /\ fst (writecmd sample_env [] true 500 (world_of [noise]))
      = Raise UnicodeDecodeError)
  /\ (fst (read_until 500 (snd (port_write frame (world_of [bare])))) = Ok bare
      /\ firstn 4 bare = ERR_PREFIX
      /\ endswith Byte.eqb bare OK_TERM = false
      /\ fst (writecmd sample_env [] true 500 (world_of [bare]))
         = Raise EvalError).
Proof. vm_compute. repeat split. Qed.

(** ** The chunks of a file *)

Lemma chunks_eq (somefile : bytes) (chunklen : nat) :
  chunks somefile chunklen
  = match firstn chunklen somefile with
    | [] => []
    | b :: chunk => (b :: chunk) :: chunks (skipn chunklen somefile) chunklen
    end.
Proof.
  rewrite chunks_equation_1 at 1. unfold chunks_unfold_clause_1, inspect.
  destruct (firstn chunklen somefile); reflexivity.
Qed.



(** ** Frames that can be encoded *)

Lemma encode_ascii_some (s : str) :
  forallb (fun c => c <? 128) s = true ->
  exists b, encode_ascii s = Some b /\ List.map Byte.to_N b = s.
Proof.
  induction s as [|c s IH]; intros H; [now exists []|].
  cbn [forallb] in H. apply andb_true_iff in H as [Hc Hs].
  destruct (IH Hs) as (b & Hb & Hm). cbn [encode_ascii]. rewrite Hc, Hb.
  destruct (Byte.of_N c) as [x|] eqn:Ex.
  - exists (x :: b). split; [reflexivity|]. cbn [List.map].
    now rewrite (@Byte.to_of_N _ _ Ex), Hm.
  - apply Byte.of_N_None_iff in Ex. apply N.ltb_lt in Hc. lia.
Qed.

Lemma encode_ascii_none (s : str) :
  forallb (fun c => c <? 128) s = false -> encode_ascii s = None.
Proof.
  induction s as [|c s IH]; intros H; [discriminate|].
  cbn [forallb] in H. cbn [encode_ascii].
  destruct (c <? 128); [|reflexivity].
  rewrite (IH H). now destruct (Byte.of_N c).
Qed.

Lemma at_command_ascii (args : str) :
  forallb (fun c => c <? 128) (at_command args)
  = forallb (fun c => c <? 128) args.
Proof.
  unfold at_command. rewrite !forallb_app.
  destruct (startswith N.eqb args (lit "+")); cbn; now rewrite andb_true_r.
Qed.

(** ** What reaches the port *)

Section PortFacts.
Variable env : Env.

Lemma read_until_tx (timeout : Z) (w : World) :
  tx (snd (read_until timeout w)) = tx w.
Proof.
  unfold read_until. destruct (clock w) as [|start clk]; [reflexivity|].
  now destruct (read_response clk (rx w) (start + timeout) []) as [[r c] p].
Qed.

(** Whatever its outcome, a command whose frame can be encoded has
    written that frame and nothing else. *)
Lemma writecmd_tx (args : str) (expect : bool) (timeout : Z) (w : World)
      (frame : bytes) :
  encode_ascii (at_command args) = Some frame ->
  tx (snd (writecmd env args expect timeout w)) = tx w ++ [frame].
Proof.
  intros E. destruct expect.
  - rewrite (writecmd_expect env _ _ _ E).
    pose proof (read_until_tx timeout (snd (port_write frame w))) as Htx.
    destruct (read_until timeout _) as [[resp|e|] w2]; exact Htx.
  - now rewrite (writecmd_no_response env _ _ _ E).
Qed.

Lemma issues_writecmd (args : str) (expect : bool) (timeout : Z) :
  issues (writecmd env args expect timeout) [args].
Proof.
  intros w w' r H.
  destruct (encode_ascii (at_command args)) as [frame|] eqn:E.
  - exists 1%nat, [frame]. pose proof (writecmd_tx args expect timeout w E) as Htx.
    rewrite H in Htx. repeat split; auto. now repeat constructor.
  - exists 0%nat, []. unfold writecmd, bind, lift in H. rewrite E in H.
    injection H as <- <-. repeat split.
    + cbn [length]. lia.
    + constructor.
    + now rewrite app_nil_r.
    + discriminate.
Qed.

(** An action that leaves the port alone issues nothing. *)
Lemma issues_nothing (A : Type) (m : M A) :
  (forall w, tx (snd (m w)) = tx w) -> issues m [].
Proof.
  intros Hm w w' r H. exists 0%nat, []. specialize (Hm w). rewrite H in Hm.
  repeat split.
  - cbn [length]. lia.
  - constructor.
  - cbn [snd] in Hm. now rewrite app_nil_r.
Qed.

Lemma issues_bind (A B : Type) (m : M A) (k : A -> M B) (c1 c2 : list str) :
  issues m c1 -> (forall a, issues (k a) c2) -> issues (bind m k) (c1 ++ c2).
Proof.
  intros Hm Hk w w' r H. unfold bind in H.
  destruct (m w) as [[a|e|] w1] eqn:E.
  - destruct (Hm _ _ _ E) as (k1 & f1 & _ & Hf1 & Ht1 & Hall).
    rewrite (Hall a eq_refl), firstn_all in Hf1.
    destruct (Hk a _ _ _ H) as (k2 & f2 & Hle & Hf2 & Ht2 & Hall2).
    exists (length c1 + k2)%nat, (f1 ++ f2). repeat split.
    + rewrite length_app. lia.
    + rewrite firstn_app_2. now apply Forall2_app.
    + now rewrite Ht2, Ht1, <- app_assoc.
    + intros b Hb. rewrite length_app, (Hall2 b Hb). reflexivity.
  - injection H as <- <-.
    destruct (Hm _ _ _ E) as (k1 & f1 & Hle & Hf1 & Ht1 & _).
    exists k1, f1. repeat split; trivial.
    + rewrite length_app. lia.
    + rewrite firstn_app. replace (k1 - length c1)%nat with 0%nat by lia.
      now rewrite app_nil_r.
    + discriminate.
  - injection H as <- <-.
    destruct (Hm _ _ _ E) as (k1 & f1 & Hle & Hf1 & Ht1 & _).
    exists k1, f1. repeat split; trivial.
    + rewrite length_app. lia.
    + rewrite firstn_app. replace (k1 - length c1)%nat with 0%nat by lia.
      now rewrite app_nil_r.
    + discriminate.
Qed.










(** *** A device that acknowledges *)







End PortFacts.

(** ** Running a program *)

Section RunFacts.
Variable env : Env.

Lemma read_until_stdout (timeout : Z) (w : World) :
  stdout (snd (read_until timeout w)) = stdout w.
Proof.
  unfold read_until. destruct (clock w) as [|start clk]; [reflexivity|].
  now destruct (read_response clk (rx w) (start + timeout) []) as [[r c] p].
Qed.

(** [writecmd] prints nothing. *)
Lemma writecmd_stdout (args : str) (expect : bool) (timeout : Z) (w : World) :
  stdout (snd (writecmd env args expect timeout w)) = stdout w.
Proof.
  destruct (encode_ascii (at_command args)) as [frame|] eqn:E.
  - destruct expect.
    + rewrite (writecmd_expect env _ _ _ E).
      pose proof (read_until_stdout timeout (snd (port_write frame w))) as Hs.
      destruct (read_until timeout _) as [[resp|e|] w2]; exact Hs.
    + now rewrite (writecmd_no_response env _ _ _ E).
  - unfold writecmd, bind, lift. now rewrite E.
Qed.

(** [run] up to its direct read: the probe is answered, the run command
    is written, and the report is made of what the read returns. *)
Lemma run_steps (filepath : str) (w w1 : World) (r : option str)
      (frame : bytes) :
  writecmd env [] true 500 w = (Ok r, w1) ->
  encode_ascii (at_command (lit "+RUN " ++ quoted (get_devicename filepath)))
  = Some frame ->
  run env filepath w
  = report_output env (fst (serial_read 1024 (rx w1)))
      {| rx := snd (serial_read 1024 (rx w1));
         tx := tx w1 ++ [frame];
         clock := clock w1;
         stdout := stdout w
                   ++ [lit "Running " ++ get_devicename filepath ++ lit "..."] |}.
Proof.
  intros Hprobe Hframe.
  pose proof (writecmd_stdout [] true 500 w) as Hout.
  rewrite Hprobe in Hout. cbn [snd] in Hout.
  unfold run. unfold bind at 1. rewrite Hprobe.
  unfold bind at 1. cbn [print].
  unfold bind at 1. rewrite (writecmd_no_response env _ _ _ Hframe).
  unfold bind at 1. unfold port_read, port_write.
  cbn [snd rx tx clock stdout].
  destruct (serial_read 1024 (rx w1)) as [output pending].
  cbn [fst snd]. now rewrite Hout.
Qed.

(** C7: when the probe is answered and the direct read returns the bytes
    of [hello], carriage return, line feed and the success terminator,
    [run] prints the output [hello] and then that the program completed
    successfully. *)
Theorem run_hello (filepath : str) (w w1 : World) (r : option str)
        (frame : bytes) (pending : list bytes) :
  writecmd env [] true 500 w = (Ok r, w1) ->
  encode_ascii (at_command (lit "+RUN " ++ quoted (get_devicename filepath)))
  = Some frame ->
  serial_read 1024 (rx w1)
  = ([x68; x65; x6c; x6c; x6f; x0d; x0a; x30; x30; x0d], pending) ->
  exists w',
    run env filepath w = (Ok tt, w')
    /\ stdout w'
       = stdout w
         ++ [lit "Running " ++ get_devicename filepath ++ lit "...";
             lit "Output:" ++ [LF] ++ lit "hello" ++ [CR; LF];
             lit "Program completed successfully."].
Proof.
  intros Hprobe Hframe Hread.
  rewrite (run_steps _ _ Hprobe Hframe), Hread. cbn [fst snd].
  eexists. split; [reflexivity|].
  cbn [stdout]. now rewrite <- !app_assoc.
Qed.

(** C9, amended: when the probe is answered and the direct read returns
    exactly the three bytes line feed, [0], [0], [run] ends normally and
    prints nothing after its [Running] line. *)
Theorem run_ignores_bare_status (filepath : str) (w w1 : World)
        (r : option str) (frame : bytes) (pending : list bytes) :
  writecmd env [] true 500 w = (Ok r, w1) ->
  encode_ascii (at_command (lit "+RUN " ++ quoted (get_devicename filepath)))
  = Some frame ->
  serial_read 1024 (rx w1) = ([x0a; x30; x30], pending) ->
  exists w',
    run env filepath w = (Ok tt, w')
    /\ stdout w'
       = stdout w ++ [lit "Running " ++ get_devicename filepath ++ lit "..."].
Proof.
  intros Hprobe Hframe Hread.
  rewrite (run_steps _ _ Hprobe Hframe), Hread. cbn [fst snd].
  eexists. split; reflexivity.
Qed.

(** No read of two bytes is ignored: the bytes are decoded and printed
    as immediate output, or the decoding raises. *)
Lemma run_two_bytes (filepath : str) (w w1 : World) (r : option str)
      (frame : bytes) (pending : list bytes) (a b : byte) :
  writecmd env [] true 500 w = (Ok r, w1) ->
  encode_ascii (at_command (lit "+RUN " ++ quoted (get_devicename filepath)))
  = Some frame ->
  serial_read 1024 (rx w1) = ([a; b], pending) ->
  (fst (run env filepath w) = Raise UnicodeDecodeError)
  \/ (exists text,
         stdout (snd (run env filepath w))
         = stdout w
           ++ [lit "Running " ++ get_devicename filepath ++ lit "...";
               lit "Immediate output:" ++ [LF] ++ text]).
Proof.
  intros Hprobe Hframe Hread.
  rewrite (run_steps _ _ Hprobe Hframe), Hread. cbn [fst snd].
  unfold report_output. cbn [length Nat.ltb Nat.leb andb].
  assert (Hne : byte_seq_eqb [a; b] [x0a; x30; x30] = false).
  { unfold byte_seq_eqb. cbn [seq_eqb]. now rewrite !andb_false_r. }
  rewrite Hne. cbn [negb].
  destruct (decode_utf8 [a; b]) as [text|]; cbn.
  - right. exists text. now rewrite <- app_assoc.
  - now left.
Qed.
End RunFacts.

Lemma run_hello_witness :
  stdout (snd (run sample_env (lit "/src/blink.uwc")
                 (world_of [ACK; [x68; x65; x6c; x6c; x6f; x0d; x0a;
                                  x30; x30; x0d]])))
  = [lit "Running blink...";
     lit "Output:" ++ [LF] ++ lit "hello" ++ [CR; LF];
     lit "Program completed successfully."].
Proof.
  set (w := world_of _).
  destruct (@run_hello sample_env (lit "/src/blink.uwc") w
              (snd (writecmd sample_env [] true 500 w)) (Some [])
              [x41; x54; x2b; x52; x55; x4e; x20; x22;
               x62; x6c; x69; x6e; x6b; x22; x0d]
              [] eq_refl eq_refl eq_refl) as (w' & Hrun & Hout).
  rewrite Hrun. exact Hout.
Defined.

Lemma run_ignores_bare_status_witness :
  stdout (snd (run sample_env (lit "/src/blink.uwc")
                 (world_of [ACK; [x0a; x30; x30]])))
  = [lit "Running blink..."].
Proof.
  set (w := world_of _).
  destruct (@run_ignores_bare_status sample_env (lit "/src/blink.uwc") w
              (snd (writecmd sample_env [] true 500 w)) (Some [])
              [x41; x54; x2b; x52; x55; x4e; x20; x22;
               x62; x6c; x69; x6e; x6b; x22; x0d]
              [] eq_refl eq_refl eq_refl) as (w' & Hrun & Hout).
  rewrite Hrun. exact Hout.
Defined.

(** C9, as stated, fails: there is no sequence of two bytes that [run]
    passes over in silence. *)
Lemma run_no_silent_two_bytes :
  ~ (exists a b : byte,
        forall (env : Env) (filepath : str) (w w1 : World) (r : option str)
               (frame : bytes) (pending : list bytes),
          writecmd env [] true 500 w = (Ok r, w1) ->
          encode_ascii
            (at_command (lit "+RUN " ++ quoted (get_devicename filepath)))
          = Some frame ->
          serial_read 1024 (rx w1) = ([a; b], pending) ->
          exists w',
            run env filepath w = (Ok tt, w')
            /\ stdout w'
               = stdout w
                 ++ [lit "Running " ++ get_devicename filepath ++ lit "..."]).
Proof.
  intros (a & b & H).
  set (w := world_of [ACK; [a; b]]).
  set (frame := [x41; x54; x2b; x52; x55; x4e; x20; x22;
                 x62; x6c; x69; x6e; x6b; x22; x0d]).
  destruct (H sample_env (lit "/src/blink.uwc") w
              (snd (writecmd sample_env [] true 500 w)) (Some []) frame []
              eq_refl eq_refl eq_refl) as (w' & Hrun & Hout).
  destruct (@run_two_bytes sample_env (lit "/src/blink.uwc") w
              (snd (writecmd sample_env [] true 500 w)) (Some []) frame []
              a b eq_refl eq_refl eq_refl) as [Hr | (text & Ht)].
  - rewrite Hrun in Hr. discriminate Hr.
  - rewrite Hrun in Ht. cbn [snd] in Ht. rewrite Hout in Ht.
    apply app_inv_head in Ht. discriminate Ht.
Qed.

(** ** Formatting *)

Section FormatFacts.
Variable env : Env.

(** The steps before the final re-probe fail only in the clear command
    or in the empty command after it: the factory reset expects no
    response, the pause and the discarding read cannot fail. *)
Lemma format_steps_eq (w : World) :
  format_steps env w
  = match writecmd env (lit "Z") true 5000
            (snd (print (lit "Formatting BL600...") w)) with
    | (Ok _, w1) =>
        match writecmd env [] true 500 w1 with
        | (Ok _, w2) =>
            (Ok tt,
             {| rx := snd (serial_read 1024 (rx w2));
                tx := tx w2 ++ [[x41; x54; x20; x26; x46; x20; x31; x0d]];
                clock := clock w2;
                stdout := stdout w2
                          ++ [lit "Format complete. Reconnecting..."] |})
        | (Raise e, w2) => (Raise e, w2)
        | (Stuck, w2) => (Stuck, w2)
        end
    | (Raise e, w1) => (Raise e, w1)
    | (Stuck, w1) => (Stuck, w1)
    end.
Proof.
  unfold format_steps. unfold bind at 1. cbn [print snd].
  unfold bind at 1.
  destruct (writecmd env (lit "Z") true 5000 _) as [[r1|e1|] w1]; trivial.
  unfold bind at 1.
  destruct (writecmd env [] true 500 w1) as [[r2|e2|] w2]; trivial.
  unfold bind at 1.
  rewrite (@writecmd_no_response env (lit "&F 1") 500 w2
             [x41; x54; x20; x26; x46; x20; x31; x0d] eq_refl).
  unfold bind, sleep, ret, port_read, port_write, print.
  cbn [snd rx tx clock stdout].
  now destruct (serial_read 1024 (rx w2)).
Qed.

(** C8, amended: [format] fails exactly when one of its three commands
    that expect a response fails: the clear command, the empty command
    that follows it, or, once the steps before it are done, the final
    re-probe.  The factory reset, the pause and the discarding read
    surface no failure. *)
Theorem format_failure (w w' : World) (e : exn) :
  format env w = (Raise e, w')
  <-> (let w0 := snd (print (lit "Formatting BL600...") w) in
       writecmd env (lit "Z") true 5000 w0 = (Raise e, w')
       \/ (exists r1 w1,
              writecmd env (lit "Z") true 5000 w0 = (Ok r1, w1)
              /\ writecmd env [] true 500 w1 = (Raise e, w'))
       \/ (exists w3,
              format_steps env w = (Ok tt, w3)
              /\ writecmd env [] true 500 w3 = (Raise e, w'))).
Proof.
  cbv zeta. unfold format. unfold bind at 1.
  rewrite format_steps_eq.
  destruct (writecmd env (lit "Z") true 5000 _) as [[r1|e1|] w1] eqn:E1;
    [destruct (writecmd env [] true 500 w1) as [[r2|e2|] w2] eqn:E2;
     [unfold bind, ret;
      match goal with
      | |- context [writecmd env [] true 500 (Build_World ?a ?b ?c ?d)] =>
          destruct (writecmd env [] true 500 (Build_World a b c d))
            as [[r3|e3|] w3] eqn:E3
      end | |] | |];
    (split;
     [ intros H;
       first [ discriminate H
             | left; congruence
             | right; left; exists r1, w1; split; congruence
             | right; right; eexists; split; [reflexivity | congruence] ]
     | intros [H | [(x & y & H & H') | (w4 & H & H')]]; congruence ]).
Qed.
End FormatFacts.

Lemma format_failure_witness :
  let w := world_of [ACK; ACK] in
  let silent := RuntimeError (NoResponse (lit "AT " ++ [CR])) in
  fst (format sample_env w) = Raise silent
  /\ exists w3,
       format_steps sample_env w = (Ok tt, w3)
       /\ fst (writecmd sample_env [] true 500 w3) = Raise silent.
Proof.
  intros w silent.
  destruct (@format_failure sample_env w (snd (format sample_env w)) silent)
    as [Hfwd Hbwd].
  split.
  - apply (f_equal fst
             (Hbwd (or_intror (or_intror
                      (ex_intro _ (snd (format_steps sample_env w))
                         (conj eq_refl eq_refl)))))).
  - destruct (Hfwd eq_refl) as [H | [(r1 & w1 & H0 & H) | (w3 & Hs & Hp)]].
    + vm_compute in H. discriminate H.
    + vm_compute in H0. injection H0 as <- <-.
      vm_compute in H. discriminate H.
    + exists w3. split; [exact Hs | now rewrite Hp].
Defined.

(** C8, as stated, fails: when the device answers the clear command with
    an error, [format] raises that error and the final re-probe is never
    written. *)
Lemma format_clear_command_error :
  let w := slow_world_of [[x0a; x30; x31; x09; x31; x38; x31; x31; x0d]] in
  fst (format_steps sample_env w)
  = Raise (RuntimeError (DeviceError (lit "1811") (lit "File not found")))
  /\ fst (format sample_env w)
     = Raise (RuntimeError (DeviceError (lit "1811") (lit "File not found")))
  /\ tx (snd (format sample_env w)) = [[x41; x54; x20; x5a; x0d]].
Proof. vm_compute. repeat split. Qed.

(** ** The include preprocessor *)

Lemma startswith_split (s p : str) :
  startswith N.eqb s p = true -> s = p ++ skipn (length p) s.
Proof.
  revert s. induction p as [|x p IH]; intros s H; [reflexivity|].
  destruct s as [|y s]; [discriminate|]. cbn [startswith] in H.
  apply andb_true_iff in H as [Hx Hp]. apply N.eqb_eq in Hx. subst y.
  cbn [length skipn app]. now rewrite <- (IH _ Hp).
Qed.

Lemma drop_while_split (A : Type) (f : A -> bool) (r : list A) :
  exists ws,
    r = ws ++ drop_while f r /\ forallb f ws = true
    /\ length ws = (length r - length (drop_while f r))%nat.
Proof.
  induction r as [|x r (ws & Hr & Hf & Hl)].
  - now exists [].
  - cbn [drop_while]. destruct (f x) eqn:E.
    + exists (x :: ws). cbn [app forallb length]. rewrite E, Hf, Hl.
      repeat split; [now rewrite <- Hr|].
      assert (length (drop_while f r) <= length r)%nat.
      { rewrite Hr at 2. rewrite length_app. lia. }
      lia.
    + exists []. cbn [app forallb]. repeat split. simpl. lia.
Qed.

(** A match found at the head of a text is a directive there. *)
Lemma match_here_sound (s : str) (len : nat) (g : str) :
  include_re.match_here s = Some (len, g) ->
  exists ws after,
    s = include_re.MARK ++ ws ++ [QUOTE] ++ g ++ [QUOTE] ++ after
    /\ ws <> [] /\ forallb isspace ws = true
    /\ forallb (fun c => negb (LF =? c)) g = true
    /\ (after = [] \/ exists a, after = LF :: a).
Proof.
  unfold include_re.match_here.
  destruct (startswith N.eqb s include_re.MARK) eqn:Hmark; [|discriminate].
  apply startswith_split in Hmark.
  set (r := skipn (length include_re.MARK) s) in *.
  destruct (drop_while_split isspace r) as (ws & Hr & Hws & Hl).
  rewrite <- Hl.
  destruct (length ws) as [|n] eqn:Hn; [discriminate|].
  destruct (drop_while isspace r) as [|q body]; [discriminate|].
  destruct (N.eqb_spec q QUOTE) as [->|]; [|discriminate].
  set (seg := take_until (N.eqb LF) body).
  destruct (rev seg) as [|q' g'] eqn:Hseg; [discriminate|].
  destruct (N.eqb_spec q' QUOTE) as [->|]; [|discriminate].
  intros H. injection H as _ <-.
  assert (Hs : seg = rev g' ++ [QUOTE]).
  { rewrite <- (rev_involutive seg), Hseg. reflexivity. }
  assert (Hclean : forallb (fun c => negb (LF =? c)) seg = true)
    by apply take_until_clean.
  assert (Hbody : exists after,
             body = seg ++ after /\ (after = [] \/ exists a, after = LF :: a)).
  { pose proof (take_until_length (N.eqb LF) body) as Hle.
    destruct (Nat.eq_dec (length seg) (length body)) as [E|E].
    - exists []. split; [|now left]. rewrite app_nil_r.
      unfold seg. rewrite (take_until_prefix (N.eqb LF) body).
      fold seg. rewrite E. symmetry. apply firstn_all.
    - destruct (take_until_stop (N.eqb LF) body) as (x & rest & Hb & Hx);
        [unfold seg in *; lia|].
      apply N.eqb_eq in Hx. subst x. exists (LF :: rest).
      split; [exact Hb | right; now exists rest]. }
  destruct Hbody as (after & Hb & Hafter).
  exists ws, after. repeat split; trivial.
  - rewrite Hmark at 1. rewrite Hr, Hb, Hs. now rewrite <- !app_assoc.
  - intros ->. discriminate.
  - rewrite Hs, forallb_app in Hclean.
    now apply andb_true_iff in Hclean as [Hg _].
Qed.

(** A match found by the search is a directive of the text. *)
Lemma search_from_sound (s before : str) (i : nat) (bol : bool)
      (m : include_re.Match) :
  (bol = true -> before = [] \/ exists b, before = b ++ [LF]) ->
  include_re.search_from i bol s = Some m ->
  directive_at (before ++ s).
Proof.
  revert before i bol. induction s as [|c s IH]; intros before i bol Hbol H.
  - discriminate.
  - cbn [include_re.search_from] in H.
    destruct (if bol then include_re.match_here (c :: s) else None)
      as [[len g]|] eqn:Hm.
    + destruct bol; [|discriminate].
      destruct (match_here_sound _ Hm) as (ws & after & Hs & Hne & Hws & Hg & Ha).
      exists before, ws, g, after. rewrite Hs. repeat split; auto.
    + replace (before ++ c :: s) with ((before ++ [c]) ++ s)
        by now rewrite <- app_assoc.
      apply (IH _ (S i) (c =? LF)); [|exact H].
      intros Hc. apply N.eqb_eq in Hc. subst c. right. now exists before.
Qed.

Lemma startswith_app (p rest : str) : startswith N.eqb (p ++ rest) p = true.
Proof.
  induction p as [|x p IH]; [now destruct rest|].
  cbn [app startswith]. now rewrite N.eqb_refl, IH.
Qed.

Lemma skipn_prefix (A : Type) (p rest : list A) : skipn (length p) (p ++ rest) = rest.
Proof. induction p as [|x p IH]; [reflexivity | exact IH]. Qed.

Lemma drop_while_app_stop (A : Type) (f : A -> bool) (ws rest : list A) (x : A) :
  forallb f ws = true -> f x = false ->
  drop_while f (ws ++ x :: rest) = x :: rest.
Proof.
  intros Hws Hx. induction ws as [|y ws IH]; cbn [app drop_while].
  - now rewrite Hx.
  - cbn [forallb] in Hws. apply andb_true_iff in Hws as [Hy Hws].
    rewrite Hy. now apply IH.
Qed.

(** A directive at the head of a text is matched there. *)
Lemma match_here_complete (ws path after : str) :
  ws <> [] -> forallb isspace ws = true ->
  forallb (fun c => negb (LF =? c)) path = true ->
  (after = [] \/ exists a, after = LF :: a) ->
  include_re.match_here
    (include_re.MARK ++ ws ++ [QUOTE] ++ path ++ [QUOTE] ++ after)
  = Some (length (include_re.MARK ++ ws ++ [QUOTE] ++ path ++ [QUOTE]), path).
Proof.
  intros Hne Hws Hpath Hafter. unfold include_re.match_here.
  rewrite startswith_app, skipn_prefix.
  cbn [app]. rewrite (drop_while_app_stop isspace ws _ QUOTE Hws eq_refl).
  rewrite length_app. cbn [length].
  replace (length ws + S (length (path ++ QUOTE :: after))
           - S (length (path ++ QUOTE :: after)))%nat
    with (length ws) by lia.
  destruct ws as [|x ws]; [now elim Hne|]. cbn [length].
  change (QUOTE =? QUOTE) with true. cbv iota.
  assert (Hseg : take_until (N.eqb LF) (path ++ QUOTE :: after)
                 = path ++ [QUOTE]).
  { assert (Hclean : forallb (fun c => negb (LF =? c)) (path ++ [QUOTE]) = true)
      by (rewrite forallb_app, Hpath; reflexivity).
    destruct Hafter as [->|(a & ->)].
    - now apply take_until_none.
    - replace (path ++ QUOTE :: LF :: a) with ((path ++ [QUOTE]) ++ LF :: a)
        by now rewrite <- app_assoc.
      now apply take_until_app_stop. }
  rewrite Hseg, rev_app_distr. cbn [rev app].
  change (QUOTE =? QUOTE) with true. cbv iota. rewrite rev_involutive.
  f_equal. f_equal.
  repeat (rewrite length_app; cbn [length]). lia.
Qed.

(** A directive of the text is found by the search, unless an earlier
    match is. *)
Lemma search_from_complete (before s : str) (i : nat) (bol : bool)
      (len : nat) (g : str) :
  include_re.match_here s = Some (len, g) ->
  (before = [] -> bol = true) ->
  (before = [] \/ exists b, before = b ++ [LF]) ->
  include_re.search_from i bol (before ++ s) <> None.
Proof.
  intros Hm. revert i bol. induction before as [|c before IH]; intros i bol Hb Hl.
  - cbn [app]. destruct s as [|c s]; [discriminate Hm|].
    cbn [include_re.search_from]. rewrite (Hb eq_refl), Hm. discriminate.
  - cbn [app include_re.search_from].
    destruct (if bol then include_re.match_here (c :: before ++ s) else None)
      as [[len' g']|]; [discriminate|].
    apply IH.
    + intros ->. destruct Hl as [Hl|(b & Hl)]; [discriminate|].
      destruct b as [|y b]; [now injection Hl as -> | ].
      injection Hl as _ Hl. now destruct b.
    + destruct Hl as [Hl|(b & Hl)]; [discriminate|].
      destruct b as [|y b]; [injection Hl as _ <-; now left|].
      injection Hl as _ ->. right. now exists b.
Qed.

(** The search finds a match exactly in the documents that hold a
    directive. *)
Lemma search_spec (file : str) :
  include_re.search file = None <-> ~ directive_at file.
Proof.
  split.
  - intros Hnone (before & ws & path & after & -> & Hb & Hne & Hws & Hp & Ha).
    apply (@search_from_complete before _ 0%nat true _ _
             (@match_here_complete ws path after Hne Hws Hp Ha)); auto.
  - intros Hno. destruct (include_re.search file) as [m|] eqn:E; [|reflexivity].
    exfalso. apply Hno. apply (@search_from_sound file [] 0%nat true m).
    + now left.
    + exact E.
Qed.

(** C4, amended: a document in which the pattern of [do_include] finds no
    match is returned as it is, whatever the directory and the depth, with
    no marker text removed; and the pattern finds no match exactly in the
    documents where no line start is followed by the marker, white space
    (line breaks included) and a quoted text that ends its line. *)
Theorem do_include_unchanged (env : Env) (depth : nat) (file dirname : str) :
  (include_re.search file = None -> do_include env depth file dirname = Ok file)
  /\ (include_re.search file = None <-> ~ directive_at file).
Proof.
  split; [|apply search_spec].
  intros H. destruct depth; cbn [do_include]; now rewrite H.
Qed.

Lemma do_include_unchanged_witness :
  let doc := lit "REM #include lib.sb" ++ [LF] ++ lit "PRINT 1" in
  do_include sample_env 0 doc (lit "/src") = Ok doc /\ ~ directive_at doc.
Proof.
  intros doc.
  destruct (do_include_unchanged sample_env 0 doc (lit "/src")) as [H1 [H2 _]].
  split; [apply H1 | apply H2]; vm_compute; reflexivity.
Defined.

(** C4, as stated, fails: the marker alone on one line and the quoted path
    on the next make no include line, yet the pattern matches across the
    line break, and the document is expanded, or rejected when the file is
    missing. *)
Lemma do_include_across_lines :
  let doc := lit "#include" ++ [LF] ++ quoted (lit "lib.sb") in
  let gone := lit "#include" ++ [LF] ++ quoted (lit "gone.sb") in
  has_include_line doc = false
  /\ do_include sample_env 5 doc (lit "/src") = Ok ([LF] ++ lit "DIM x" ++ [LF])
  /\ do_include sample_env 5 doc (lit "/src") <> Ok doc
  /\ has_include_line gone = false
  /\ do_include sample_env 5 gone (lit "/src")
     = Raise (RuntimeError (IncludedFileMissing (lit "/src/gone.sb"))).
Proof. vm_compute. repeat split. discriminate. Qed.

(** ** Concrete uploads *)

(** A device that answers at once acknowledges as many commands as one
    likes: the clock may stand still. *)
Lemma acknowledges_steady (n : nat) (rest : list bytes) (t : Z) (sent : list bytes)
      (printed : list str) :
  acknowledges n {| rx := repeat ACK n ++ rest; tx := sent;
                    clock := repeat t (5 * n); stdout := printed |}.
Proof.
  split; [now exists rest|]. cbn [clock]. split; [now rewrite repeat_length|].
  exists t. apply Forall_forall. intros x Hx.
  assert (Hin : In x (repeat t (5 * n))).
  { rewrite <- (firstn_skipn (5 * n) (repeat t (5 * n))).
    apply in_or_app. now left. }
  apply repeat_spec in Hin. lia.
Qed.


(** Twenty bytes go out as delete, open, a chunk of sixteen bytes, a chunk
    of four, and close. *)
Example upload_twenty_bytes :
  List.map (List.map Byte.to_N)
    (tx (snd (upload sample_env (lit "/src/blink.sb")
                (world_of (repeat ACK 5)))))
  = [lit "AT+DEL " ++ quoted (lit "blink") ++ lit " +" ++ [CR];
     lit "AT+FOW " ++ quoted (lit "blink") ++ [CR];
     lit "AT+FWRH " ++ quoted (lit "0102030405060708090a0b0c0d0e0f10") ++ [CR];
     lit "AT+FWRH " ++ quoted (lit "a1b2c3ff") ++ [CR];
     lit "AT+FCL" ++ [CR]].
Proof. vm_compute. reflexivity. Qed.

(** An empty artifact goes out as delete, open and close. *)
Example upload_empty_file :
  List.map (List.map Byte.to_N)
    (tx (snd (upload sample_env (lit "/src/empty.uwc")
                (world_of (repeat ACK 3)))))
  = [lit "AT+DEL " ++ quoted (lit "empty") ++ lit " +" ++ [CR];
     lit "AT+FOW " ++ quoted (lit "empty") ++ [CR];
     lit "AT+FCL" ++ [CR]]
  /\ fst (upload sample_env (lit "/src/empty.uwc") (world_of (repeat ACK 3)))
     = Ok tt.
Proof. vm_compute. split; reflexivity. Qed.

(** * Further properties of the driver *)

(** ** Device names and paths *)

Lemma take_until_app_clean (A : Type) (f : A -> bool) (a b : list A) :
  forallb (fun x => negb (f x)) a = true ->
  take_until f (a ++ b) = a ++ take_until f b.
Proof.
  intros Ha. induction a as [|y a IH]; [reflexivity|].
  cbn [forallb] in Ha. apply andb_true_iff in Ha as [Hy Ha].
  cbn [app take_until]. destruct (f y); [discriminate|]. now rewrite IH.
Qed.

Lemma take_until_app_hit (A : Type) (f : A -> bool) (a b : list A) (x : A) :
  f x = true -> take_until f (a ++ x :: b) = take_until f a.
Proof.
  intros Hx. induction a as [|y a IH]; cbn [app take_until].
  - now rewrite Hx.
  - destruct (f y); [reflexivity | now rewrite IH].
Qed.

Lemma forallb_skipn (A : Type) (f : A -> bool) (n : nat) (s : list A) :
  forallb f s = true -> forallb f (skipn n s) = true.
Proof.
  revert n; induction s as [|x s IH]; intros [|n] H; trivial.
  cbn [forallb] in H. apply andb_true_iff in H as [_ Hs]. now apply IH.
Qed.

(** What follows the last [c] of a text. *)
Lemma rfind_suffix (c : N) (p : str) :
  skipn (Z.to_nat (os_path.rfind c p + 1)) p
  = rev (take_until (N.eqb c) (rev p)).
Proof.
  rewrite rfind_spec.
  set (t := take_until (N.eqb c) (rev p)).
  assert (Ht : t = firstn (length t) (rev p)) by apply take_until_prefix.
  rewrite Ht at 2. rewrite firstn_rev, rev_involutive. reflexivity.
Qed.

(** No [c] stands after the index of the last [c]. *)
Lemma rfind_after (c : N) (p : str) (d : nat) :
  (os_path.rfind c p < Z.of_nat d)%Z ->
  forallb (fun x => negb (c =? x)) (skipn d p) = true.
Proof.
  intros Hd. pose proof (rfind_lower c p) as Hlow.
  set (k := Z.to_nat (os_path.rfind c p + 1)).
  replace d with ((d - k) + k)%nat by lia.
  rewrite <- skipn_skipn. unfold k. rewrite rfind_suffix.
  apply forallb_skipn. rewrite forallb_rev. apply take_until_clean.
Qed.

(** Appending a text without slashes extends the base name. *)
Lemma split_tail_app (p x : str) :
  forallb (fun c => negb (SLASH =? c)) x = true ->
  snd (os_path.split (p ++ x)) = snd (os_path.split p) ++ x.
Proof.
  intros Hx. rewrite !split_tail, rev_app_distr.
  rewrite take_until_app_clean by now rewrite forallb_rev.
  now rewrite rev_app_distr, rev_involutive.
Qed.

(** The text before the first dot of the base name is that of the root
    [splitext] leaves. *)
Lemma splitext_root_stem (p : str) :
  take_until (fun c => c =? DOT) (snd (os_path.split (fst (os_path.splitext p))))
  = take_until (fun c => c =? DOT) (snd (os_path.split p)).
Proof.
  unfold os_path.splitext.
  pose proof (rfind_lower SLASH p) as Hs.
  destruct (Z.ltb_spec (os_path.rfind SLASH p) (os_path.rfind DOT p))
    as [Hlt|Hge]; [|reflexivity].
  destruct (existsb _ _); cbn [fst]; [|reflexivity].
  set (d := Z.to_nat (os_path.rfind DOT p)).
  destruct (@rfind_found DOT p) as (rest & Hp); [lia|]. fold d in Hp.
  assert (Hskip : skipn d p = DOT :: rest).
  { apply (app_inv_head (firstn d p)). now rewrite firstn_skipn. }
  assert (Hclean : forallb (fun c => negb (SLASH =? c)) (DOT :: rest) = true).
  { rewrite <- Hskip. apply rfind_after. unfold d. lia. }
  rewrite Hp at 2. rewrite (split_tail_app _ _ Hclean).
  now rewrite take_until_app_hit.
Qed.

(** X1: the compiled file of a path has the device name of the path: the
    name [upload] stores an artifact under is the one [get_devicename]
    gives for the absolute path it was asked to upload, whatever the
    extension. *)
Theorem get_devicename_to_uwc (env : Env) (filepath : str) :
  get_devicename (to_uwc filepath) = get_devicename filepath
  /\ get_devicename (upload_path env filepath)
     = get_devicename (abspath env (expanduser env filepath)).
Proof.
  assert (H : forall p, get_devicename (to_uwc p) = get_devicename p).
  { intros p. unfold get_devicename, to_uwc. rewrite !split_head.
    change (lit ".uwc") with (DOT :: lit "uwc").
    rewrite split_tail_app by reflexivity.
    rewrite take_until_app_hit by reflexivity.
    now rewrite splitext_root_stem. }
  split; [apply H|].
  unfold upload_path. destruct (negb _); [apply H | reflexivity].
Qed.

(** X2: a device name holds neither a slash nor a dot, whatever the path
    it is taken from. *)
Theorem get_devicename_plain (filepath : str) :
  forallb (fun c => negb (c =? SLASH) && negb (c =? DOT))
          (get_devicename filepath) = true.
Proof.
  unfold get_devicename. rewrite split_head.
  apply forallb_firstn, forallb_filter_weaken.
  set (stem := take_until _ _).
  assert (Hdot : forallb (fun c => negb (c =? DOT)) stem = true)
    by apply (take_until_clean (fun c => c =? DOT)).
  assert (Hslash : forallb (fun c => negb (SLASH =? c)) stem = true).
  { unfold stem. rewrite take_until_prefix.
    apply forallb_firstn, split_tail_no_slash. }
  clearbody stem. induction stem as [|c stem IH]; [reflexivity|].
  cbn [forallb] in *.
  apply andb_true_iff in Hdot as [Hd Hdot].
  apply andb_true_iff in Hslash as [Hs Hslash].
  rewrite (N.eqb_sym c SLASH), Hs, Hd. now apply IH.
Qed.

(** ** Chunks and their hexadecimal rows *)

(** X3: for a positive chunk length, the chunks of a file are never empty
    and never longer than the chunk length, all but the last have exactly
    that length, and joined in order they are the file; a chunk length of
    zero gives no chunk at all. *)
Theorem chunks_partition (somefile : bytes) (chunklen : nat) :
  chunks somefile 0 = []
  /\ ((0 < chunklen)%nat ->
      concat (chunks somefile chunklen) = somefile
      /\ Forall (fun chunk => (0 < length chunk <= chunklen)%nat)
                (chunks somefile chunklen)
      /\ Forall (fun chunk => length chunk = chunklen)
                (removelast (chunks somefile chunklen))).
Proof.
  split; [now rewrite chunks_eq|]. intros Hn.
  remember (length somefile) as k eqn:Hk.
  revert somefile Hk. induction k as [k IH] using lt_wf_ind. intros f Hk.
  rewrite chunks_eq.
  destruct (firstn chunklen f) as [|b chunk] eqn:E.
  - destruct chunklen; [lia|]. destruct f; [|discriminate].
    repeat split; constructor.
  - assert (Hc : length (b :: chunk) = Nat.min chunklen (length f))
      by (rewrite <- E; apply length_firstn).
    assert (Hs : length (skipn chunklen f) = (length f - chunklen)%nat)
      by apply length_skipn.
    assert (Hpos : (0 < length f)%nat)
      by (destruct f; [destruct chunklen; discriminate | simpl; lia]).
    destruct (IH (length (skipn chunklen f))) with (somefile := skipn chunklen f)
      as (Hcat & Hall & Hfull); [lia | reflexivity |].
    repeat split.
    + cbn [concat]. rewrite Hcat, <- E. apply firstn_skipn.
    + constructor; [lia | exact Hall].
    + rewrite chunks_eq in Hfull |- *.
      destruct (firstn chunklen (skipn chunklen f)) as [|b' chunk'] eqn:E';
        [constructor|].
      change (removelast ((b :: chunk) :: ?x :: ?y))
        with ((b :: chunk) :: removelast (x :: y)).
      constructor; [|exact Hfull].
      assert (length (skipn chunklen f) <> 0)%nat.
      { intros Hz. apply length_zero_iff_nil in Hz. rewrite Hz in E'.
        destruct chunklen; discriminate. }
      lia.
Qed.

Lemma chunks_partition_witness :
  concat (chunks sample_artifact 7) = sample_artifact
  /\ List.map (@length byte) (chunks sample_artifact 7) = [7; 7; 6]%nat.
Proof.
  split; [|vm_compute; reflexivity].
  apply (proj2 (chunks_partition sample_artifact 7)). lia.
Defined.

Lemma hex_digit_lower (d : N) : d < 16 -> is_hex_lower (hex_digit d) = true.
Proof.
  intros Hd. unfold is_hex_lower, hex_digit.
  destruct (N.ltb_spec d 10).
  - replace (48 <=? 48 + d) with true by (symmetry; apply N.leb_le; lia).
    replace (48 + d <=? 57) with true by (symmetry; apply N.leb_le; lia).
    reflexivity.
  - replace (97 <=? 87 + d) with true by (symmetry; apply N.leb_le; lia).
    replace (87 + d <=? 102) with true by (symmetry; apply N.leb_le; lia).
    apply orb_true_r.
Qed.

Lemma hex_digit_inj (a b : N) :
  a < 16 -> b < 16 -> hex_digit a = hex_digit b -> a = b.
Proof.
  unfold hex_digit. intros Ha Hb.
  destruct (N.ltb_spec a 10), (N.ltb_spec b 10); lia.
Qed.

Lemma hex02_inj (a b : byte) : hex02 a = hex02 b -> a = b.
Proof.
  unfold hex02. intros H. injection H as Hhi Hlo.
  pose proof (Byte.to_N_bounded a) as Ba.
  pose proof (Byte.to_N_bounded b) as Bb.
  assert (Hq : Byte.to_N a / 16 = Byte.to_N b / 16).
  { apply hex_digit_inj; trivial; apply N.Div0.div_lt_upper_bound; lia. }
  assert (Hr : Byte.to_N a mod 16 = Byte.to_N b mod 16).
  { apply hex_digit_inj; trivial; apply N.mod_lt; lia. }
  assert (Hn : Byte.to_N a = Byte.to_N b).
  { rewrite (N.div_mod (Byte.to_N a) 16), (N.div_mod (Byte.to_N b) 16) by lia.
    now rewrite Hq, Hr. }
  assert (Hs : Some a = Some b)
    by now rewrite <- (Byte.of_to_N a), <- (Byte.of_to_N b), Hn.
  now injection Hs.
Qed.

(** X4: the row written for a chunk consists of lower-case hexadecimal
    digits only, and two chunks with the same row are the same chunk: the
    encoding loses nothing. *)
Theorem hex_row_faithful (chunk other : bytes) :
  forallb is_hex_lower (concat (List.map hex02 chunk)) = true
  /\ (concat (List.map hex02 chunk) = concat (List.map hex02 other) ->
      chunk = other).
Proof.
  split.
  - induction chunk as [|b chunk IH]; [reflexivity|].
    pose proof (Byte.to_N_bounded b) as Bb.
    cbn [List.map concat hex02 app forallb].
    rewrite !hex_digit_lower, IH; trivial.
    + apply N.mod_lt. lia.
    + apply N.Div0.div_lt_upper_bound. lia.
  - revert other. induction chunk as [|b chunk IH]; intros [|c other] H;
      try reflexivity; try discriminate H.
    cbn [List.map concat hex02 app] in H.
    injection H as Hhi Hlo Hrest.
    f_equal; [|now apply IH].
    apply hex02_inj. unfold hex02. now rewrite Hhi, Hlo.
Qed.

Lemma hex_row_faithful_witness :
  [x00; xff; x1a] = [x00; xff; x1a].
Proof.
  apply (proj2 (hex_row_faithful [x00; xff; x1a] [x00; xff; x1a])).
  vm_compute. reflexivity.
Defined.

(** ** Frames and responses *)

(** X5: two command tails with the same frame are the same tail, and every
    frame ends in a carriage return. *)
Theorem at_command_unambiguous (args other : str) :
  (at_command args = at_command other -> args = other)
  /\ endswith N.eqb (at_command args) [CR] = true.
Proof.
  split.
  - unfold at_command. intros H. apply app_inv_head in H.
    destruct (startswith N.eqb args (lit "+")) eqn:Ea,
             (startswith N.eqb other (lit "+")) eqn:Eo.
    + cbn [app] in H. now apply app_inv_tail in H.
    + destruct args as [|a args]; [discriminate|].
      change (lit "+") with [43] in Ea. cbn [startswith] in Ea.
      apply andb_true_iff in Ea as [Ea _]. apply N.eqb_eq in Ea.
      subst a. discriminate.
    + destruct other as [|a other]; [discriminate|].
      change (lit "+") with [43] in Eo. cbn [startswith] in Eo.
      apply andb_true_iff in Eo as [Eo _]. apply N.eqb_eq in Eo.
      subst a. discriminate.
    + cbn [app lit] in H. injection H as H. now apply app_inv_tail in H.
  - unfold at_command, endswith. rewrite !rev_app_distr.
    change (rev [CR]) with [CR]. rewrite <- !app_assoc.
    cbn [app startswith]. rewrite N.eqb_refl.
    now destruct (rev args ++ _).
Qed.

Lemma at_command_unambiguous_witness : lit "+DIR" = lit "+DIR".
Proof.
  apply (proj1 (at_command_unambiguous (lit "+DIR") (lit "+DIR"))).
  reflexivity.
Defined.

Lemma serial_read_one (pending : list bytes) :
  concat pending
  = fst (serial_read 1 pending) ++ concat (snd (serial_read 1 pending))
  /\ (length (fst (serial_read 1 pending)) <= 1)%nat.
Proof.
  destruct pending as [|b rest]; [split; [reflexivity | simpl; lia]|].
  cbn [serial_read fst snd concat].
  destruct b as [|x [|y b]]; cbn; split; trivial; lia.
Qed.

(** What the loop returns is what it had plus the next bytes of the
    device, in order; the rest stays pending; no byte is taken without a
    reading of the clock; and nothing shorter ended in the terminator. *)
Lemma read_response_trace (clk : list Z) (pending : list bytes)
      (deadline : Z) (acc r : bytes) (clk' : list Z) (pending' : list bytes) :
  read_response clk pending deadline acc = (Some r, clk', pending') ->
  exists extra,
    r = acc ++ extra
    /\ concat pending = extra ++ concat pending'
    /\ (length extra + length clk' <= length clk)%nat
    /\ (forall k, (k < length extra)%nat ->
                  endswith Byte.eqb (acc ++ firstn k extra) OK_TERM = false).
Proof.
  revert pending acc. induction clk as [|now clk IH]; intros pending acc H;
    cbn [read_response] in H;
    destruct (endswith Byte.eqb acc OK_TERM) eqn:Eend.
  - injection H as <- <- <-. exists []. rewrite app_nil_r.
    repeat split; simpl; intros; lia.
  - discriminate H.
  - injection H as <- <- <-. exists []. rewrite app_nil_r.
    repeat split; simpl; intros; lia.
  - destruct (now <? deadline)%Z.
    + destruct (serial_read_one pending) as [Hcat Hlen].
      destruct (serial_read 1 pending) as [b pending0]. cbn [fst snd] in *.
      destruct (IH _ _ H) as (extra & -> & Hp & Hl & Hk).
      exists (b ++ extra). repeat split.
      * now rewrite app_assoc.
      * now rewrite Hcat, Hp, app_assoc.
      * rewrite length_app. cbn [length]. lia.
      * intros k Hlt. destruct b as [|x [|y b]]; [| |simpl in Hlen; lia].
        -- cbn [app] in *. rewrite app_nil_r in Hk. now apply Hk.
        -- destruct k as [|k]; [now rewrite app_nil_r|].
           cbn [app firstn]. cbn [app length] in Hlt.
           replace (acc ++ x :: firstn k extra)
             with ((acc ++ [x]) ++ firstn k extra)
             by now rewrite <- app_assoc.
           apply Hk. lia.
    + injection H as <- <- <-. exists []. rewrite app_nil_r.
      repeat split; simpl; intros; lia.
Qed.

(** X6: the response the loop returns is made of the bytes the device sent,
    in order, with the rest left pending for the next read; it takes less
    bytes than the clock was read; and the loop stopped at the first
    terminator: no shorter prefix of the response ends in it. *)
Theorem read_until_trace (timeout : Z) (w w' : World) (r : bytes) :
  read_until timeout w = (Ok r, w') ->
  concat (rx w) = r ++ concat (rx w')
  /\ (length r + length (clock w') < length (clock w))%nat
  /\ (forall k, (k < length r)%nat ->
                endswith Byte.eqb (firstn k r) OK_TERM = false)
  /\ tx w' = tx w /\ stdout w' = stdout w.
Proof.
  unfold read_until. destruct (clock w) as [|start clk]; [discriminate|].
  destruct (read_response clk (rx w) (start + timeout) [])
    as [[[resp|] clk'] pending] eqn:E; [|discriminate].
  intros H. injection H as <- <-. cbn [rx tx clock stdout].
  destruct (read_response_trace _ _ _ _ E) as (extra & Hr & Hp & Hl & Hk).
  cbn [app] in Hr, Hk. subst extra.
  repeat split; trivial. cbn [length]. lia.
Qed.

Lemma read_until_trace_witness :
  let w := world_of [[x0a; x30]; []; [x30; x0d; x41]; [x42]] in
  concat (rx w) = ACK ++ concat (rx (snd (read_until 500 w)))
  /\ rx (snd (read_until 500 w)) = [[x41]; [x42]].
Proof.
  intros w. split; [|vm_compute; reflexivity].
  exact (proj1 (@read_until_trace 500 w (snd (read_until 500 w)) ACK eq_refl)).
Defined.

Lemma byte_seq_eqb_eq (a b : bytes) : byte_seq_eqb a b = true <-> a = b.
Proof.
  unfold byte_seq_eqb. revert b.
  induction a as [|x a IH]; intros [|y b]; cbn [seq_eqb];
    try (split; [discriminate | discriminate]); [now split|].
  rewrite andb_true_iff, IH. split.
  - intros [Hx ->]. now rewrite (Byte.byte_dec_bl _ _ Hx).
  - intros H. injection H as -> ->. split; [now apply Byte.byte_dec_lb | reflexivity].
Qed.

(** A device that sends nothing leaves the response empty until the clock
    reaches the deadline. *)
Lemma read_response_silent (clk : list Z) (pending : list bytes) (deadline : Z) :
  concat pending = [] ->
  (exists now, In now clk /\ (deadline <= now)%Z) ->
  fst (fst (read_response clk pending deadline [])) = Some [].
Proof.
  revert pending. induction clk as [|now clk IH];
    intros pending Hp (t & Hin & Ht); [destruct Hin|].
  cbn [read_response]. change (endswith Byte.eqb [] OK_TERM) with false.
  cbv iota. destruct (Z.ltb_spec now deadline) as [Hlt|Hge]; [|reflexivity].
  destruct (serial_read_one pending) as [Hcat _].
  destruct (serial_read 1 pending) as [b pending0]. cbn [fst snd] in Hcat.
  rewrite Hp in Hcat. symmetry in Hcat. apply app_eq_nil in Hcat as [-> Hp0].
  cbn [app]. apply IH; [exact Hp0|].
  exists t. split; [|exact Ht]. destruct Hin as [->|Hin]; [lia | exact Hin].
Qed.

Section ResponseFacts.
Variable env : Env.

(** X7: when the device sends no byte and the clock reaches the deadline,
    a command that expects a response raises the no-response error that
    carries the command text, after writing its frame. *)
Theorem writecmd_silent_device (args : str) (timeout : Z) (w : World)
        (frame : bytes) (start : Z) (clk : list Z) :
  encode_ascii (at_command args) = Some frame ->
  concat (rx w) = [] ->
  clock w = start :: clk ->
  (exists now, In now clk /\ (start + timeout <= now)%Z) ->
  fst (writecmd env args true timeout w)
  = Raise (RuntimeError (NoResponse (at_command args)))
  /\ tx (snd (writecmd env args true timeout w)) = tx w ++ [frame].
Proof.
  intros Hframe Hrx Hclock Hlate. split; [|now apply writecmd_tx].
  rewrite (writecmd_expect env _ _ _ Hframe).
  unfold read_until, port_write. cbn [snd clock rx]. rewrite Hclock.
  pose proof (@read_response_silent clk (rx w) (start + timeout)%Z Hrx Hlate) as H.
  destruct (read_response clk (rx w) (start + timeout) []) as [[r c] p].
  cbn [fst] in H. subst r. reflexivity.
Qed.

(** X8: a response that is not empty, does not end in the success
    terminator, and is not more than four bytes beginning with the error
    prefix, raises the unexpected-response error that carries the command
    tail and the raw bytes; the bare error prefix is such a response. *)
Theorem writecmd_unexpected (args : str) (timeout : Z) (w w' : World)
        (frame response : bytes) :
  encode_ascii (at_command args) = Some frame ->
  read_until timeout (snd (port_write frame w)) = (Ok response, w') ->
  response <> [] ->
  endswith Byte.eqb response OK_TERM = false ->
  ((length response <= 4)%nat \/ firstn 4 response <> ERR_PREFIX) ->
  writecmd env args true timeout w
  = (Raise (RuntimeError (Unexpected args response)), w').
Proof.
  intros Hframe Hread Hne Hend Hshape.
  rewrite (writecmd_expect env _ _ _ Hframe), Hread.
  unfold classify. rewrite Hend.
  destruct (Nat.eqb_spec (length response) 0) as [E|_].
  { apply length_zero_iff_nil in E. contradiction. }
  destruct (Nat.ltb_spec 4 (length response)) as [Hlong|_]; [|reflexivity].
  destruct (byte_seq_eqb (firstn 4 response) ERR_PREFIX) eqn:Epre;
    [|reflexivity].
  apply byte_seq_eqb_eq in Epre. destruct Hshape as [Hs|Hs]; [lia | contradiction].
Qed.

(** X9: a command tail with a character outside ASCII raises
    [UnicodeEncodeError] before anything is written or read; an ASCII
    tail that expects no response writes its frame and reads neither the
    port nor the clock. *)
Theorem writecmd_encoding (args : str) (expect : bool) (timeout : Z) (w : World) :
  (forallb (fun c => c <? 128) args = false ->
   writecmd env args expect timeout w = (Raise UnicodeEncodeError, w))
  /\ (forallb (fun c => c <? 128) args = true ->
      exists frame,
        List.map Byte.to_N frame = at_command args
        /\ writecmd env args false timeout w
           = (Ok None, {| rx := rx w; tx := tx w ++ [frame];
                          clock := clock w; stdout := stdout w |})).
Proof.
  split; intros H.
  - unfold writecmd, bind, lift.
    now rewrite encode_ascii_none by now rewrite at_command_ascii.
  - destruct (encode_ascii_some (at_command args)) as (frame & Hf & Hm);
      [now rewrite at_command_ascii|].
    exists frame. split; [exact Hm|].
    now rewrite (writecmd_no_response env _ _ _ Hf).
Qed.
End ResponseFacts.

Lemma writecmd_silent_device_witness :
  fst (writecmd sample_env (lit "+DIR") true 500 (world_of [[]; []]))
  = Raise (RuntimeError (NoResponse (lit "AT+DIR" ++ [CR]))).
Proof.
  set (w := world_of [[]; []]).
  destruct (@writecmd_silent_device sample_env (lit "+DIR") 500 w
              [x41; x54; x2b; x44; x49; x52; x0d] 0%Z (List.tl (ticking 10 200)))
    as [H _].
  - vm_compute. reflexivity.
  - reflexivity.
  - vm_compute. reflexivity.
  - exists 500%Z. split; [|vm_compute; discriminate].
    vm_compute. repeat (first [left; reflexivity | right]).
  - rewrite H. reflexivity.
Defined.

Lemma writecmd_unexpected_witness :
  fst (writecmd sample_env (lit "Z") true 500 (world_of [ERR_PREFIX]))
  = Raise (RuntimeError (Unexpected (lit "Z") ERR_PREFIX)).
Proof.
  set (w := world_of [ERR_PREFIX]).
  set (frame := [x41; x54; x20; x5a; x0d]).
  rewrite (@writecmd_unexpected sample_env (lit "Z") 500 w
             (snd (read_until 500 (snd (port_write frame w)))) frame
             ERR_PREFIX).
  - reflexivity.
  - reflexivity.
  - vm_compute. reflexivity.
  - discriminate.
  - reflexivity.
  - left. vm_compute. lia.
Defined.

Lemma writecmd_encoding_witness :
  writecmd sample_env (lit "+DEL " ++ quoted [233]) true 500 (world_of [ACK])
  = (Raise UnicodeEncodeError, world_of [ACK])
  /\ exists frame,
       List.map Byte.to_N frame = at_command (lit "&F 1")
       /\ snd (writecmd sample_env (lit "&F 1") false 500 (world_of [ACK]))
          = {| rx := [ACK]; tx := [frame]; clock := ticking 10 200;
               stdout := [] |}.
Proof.
  split.
  - apply (proj1 (writecmd_encoding sample_env (lit "+DEL " ++ quoted [233])
                    true 500 (world_of [ACK]))).
    vm_compute. reflexivity.
  - destruct (proj2 (writecmd_encoding sample_env (lit "&F 1") false 500
                       (world_of [ACK])) eq_refl) as (frame & Hm & Hw).
    exists frame. split; [exact Hm | now rewrite Hw].
Defined.

(** ** The description lookup *)

Section LookupFacts.
Variable env : Env.

Lemma errordesc_scan_no_match (lines : list str) (code number : str) :
  eval_str env (lit "0x" ++ code) = Some number ->
  Forall (fun line => contains N.eqb line number = false) lines ->
  errordesc_scan env lines code = Ok (lit "(no description available)").
Proof.
  intros Heval Hall. induction Hall as [|line lines Hline _ IH]; [reflexivity|].
  cbn [errordesc_scan]. now rewrite Heval, Hline.
Qed.

(** X10: with the code read as a hexadecimal number, the lookup looks at
    the first line of [codes.csv] that contains the number's decimal text
    anywhere, and returns the second of the fields that line splits into
    at its double quotes: the text after the first double quote, up to the
    next one or, if there is no other, to the end of the line; a matching
    line without any double quote raises [IndexError].  A table without a
    matching line, and an empty table whatever the code, give the stock
    description. *)
Theorem get_errordesc_first_match (code number : str) (lines before after : list str)
        (line : str) :
  codes_csv env = Some lines ->
  (lines = [] -> get_errordesc env code = Ok (lit "(no description available)"))
  /\ (eval_str env (lit "0x" ++ code) = Some number ->
      (Forall (fun l => contains N.eqb l number = false) lines ->
       get_errordesc env code = Ok (lit "(no description available)"))
      /\ (lines = before ++ line :: after ->
          Forall (fun l => contains N.eqb l number = false) before ->
          contains N.eqb line number = true ->
          get_errordesc env code
          = match split N.eqb QUOTE line with
            | _ :: desc :: _ => Ok desc
            | _ => Raise IndexError
            end)).
Proof.
  intros Hcsv. unfold get_errordesc. rewrite Hcsv.
  split; [now intros ->|]. intros Heval. split.
  - now apply errordesc_scan_no_match.
  - intros -> Hbefore Hline. clear Hcsv.
    induction Hbefore as [|l before Hl _ IH]; cbn [app errordesc_scan].
    + rewrite Heval, Hline. now destruct (split N.eqb QUOTE line) as [|? [|? ?]].
    + now rewrite Heval, Hl.
Qed.

End LookupFacts.

Lemma get_errordesc_first_match_witness :
  get_errordesc sample_env (lit "1812") = Ok (lit "File exists")
  /\ get_errordesc sample_env (lit "ff") = Ok (lit "(no description available)").
Proof.
  destruct (@get_errordesc_first_match sample_env (lit "1812") (lit "6162")
              [lit "6161," ++ quoted (lit "File not found") ++ [LF];
               lit "6162," ++ quoted (lit "File exists") ++ [LF]]
              [lit "6161," ++ quoted (lit "File not found") ++ [LF]] []
              (lit "6162," ++ quoted (lit "File exists") ++ [LF]) eq_refl)
    as [_ H].
  destruct (H eq_refl) as [_ H1].
  destruct (@get_errordesc_first_match sample_env (lit "ff") (lit "255")
              [lit "6161," ++ quoted (lit "File not found") ++ [LF];
               lit "6162," ++ quoted (lit "File exists") ++ [LF]]
              [] [] [] eq_refl)
    as [_ H'].
  destruct (H' eq_refl) as [H2 _].
  split.
  - rewrite H1; [reflexivity | reflexivity | | reflexivity].
    constructor; [vm_compute; reflexivity | constructor].
  - apply H2. repeat constructor.
Defined.

(** ** More of [run] *)

Section RunOutcomes.
Variable env : Env.

(** X11: when the probe is answered and the direct read returns nothing,
    [run] says that there is no immediate output and returns normally. *)
Theorem run_no_output (filepath : str) (w w1 : World) (r : option str)
        (frame : bytes) (pending : list bytes) :
  writecmd env [] true 500 w = (Ok r, w1) ->
  encode_ascii (at_command (lit "+RUN " ++ quoted (get_devicename filepath)))
  = Some frame ->
  serial_read 1024 (rx w1) = ([], pending) ->
  exists w',
    run env filepath w = (Ok tt, w')
    /\ stdout w'
       = stdout w
         ++ [lit "Running " ++ get_devicename filepath ++ lit "...";
             lit "No immediate output, program probably running..."]
    /\ rx w' = pending.
Proof.
  intros Hprobe Hframe Hread.
  rewrite (run_steps env _ _ Hprobe Hframe), Hread. cbn [fst snd].
  eexists. split; [reflexivity|]. cbn [stdout rx].
  split; [now rewrite <- app_assoc | reflexivity].
Qed.

(** X12: when the probe is answered, the run command can be encoded, the
    direct read returns more than four bytes that begin with the error
    prefix and do not end in the success terminator, the bytes after the
    prefix decode as UTF-8, and the description lookup returns for the
    error code, which is the decoded text without its last character,
    then [run] prints that code with its description and returns normally
    instead of raising. *)
Theorem run_reports_error (filepath : str) (w w1 : World) (r : option str)
        (frame output : bytes) (pending : list bytes) (text desc : str) :
  writecmd env [] true 500 w = (Ok r, w1) ->
  encode_ascii (at_command (lit "+RUN " ++ quoted (get_devicename filepath)))
  = Some frame ->
  serial_read 1024 (rx w1) = (output, pending) ->
  (4 < length output)%nat ->
  firstn 4 output = ERR_PREFIX ->
  take_last 3 output <> OK_TERM ->
  decode_utf8 (skipn 4 output) = Some text ->
  get_errordesc env (drop_last 1 text) = Ok desc ->
  exists w',
    run env filepath w = (Ok tt, w')
    /\ stdout w'
       = stdout w
         ++ [lit "Running " ++ get_devicename filepath ++ lit "...";
             lit "Error " ++ drop_last 1 text ++ lit ": " ++ desc].
Proof.
  intros Hprobe Hframe Hread Hlen Hpre Hend Htext Hdesc.
  rewrite (run_steps env _ _ Hprobe Hframe), Hread. cbn [fst snd].
  unfold report_output.
  destruct (Nat.ltb_spec 0 (length output)) as [_|]; [|lia].
  destruct (byte_seq_eqb (take_last 3 output) OK_TERM) eqn:E3.
  { apply byte_seq_eqb_eq in E3. contradiction. }
  rewrite andb_false_r.
  destruct (Nat.ltb_spec 4 (length output)) as [_|]; [|lia].
  rewrite Hpre. change (byte_seq_eqb ERR_PREFIX ERR_PREFIX) with true.
  cbn [andb]. unfold bind, lift, print. rewrite Htext. cbn [or_raise].
  rewrite Hdesc. eexists. split; [reflexivity|].
  cbn [stdout]. now rewrite <- app_assoc.
Qed.


End RunOutcomes.

Lemma run_no_output_witness :
  stdout (snd (run sample_env (lit "/src/blink.uwc") (world_of [ACK])))
  = [lit "Running blink...";
     lit "No immediate output, program probably running..."].
Proof.
  set (w := world_of _).
  destruct (@run_no_output sample_env (lit "/src/blink.uwc") w
              (snd (writecmd sample_env [] true 500 w)) (Some [])
              [x41; x54; x2b; x52; x55; x4e; x20; x22;
               x62; x6c; x69; x6e; x6b; x22; x0d]
              [] eq_refl eq_refl eq_refl) as (w' & Hrun & Hout & _).
  rewrite Hrun. exact Hout.
Defined.

Lemma run_reports_error_witness :
  run sample_env (lit "/src/blink.uwc")
      (world_of [ACK; [x0a; x30; x31; x09; x31; x38; x31; x31; x0d]])
  = (Ok tt,
     snd (run sample_env (lit "/src/blink.uwc")
            (world_of [ACK; [x0a; x30; x31; x09; x31; x38; x31; x31; x0d]])))
  /\ stdout (snd (run sample_env (lit "/src/blink.uwc")
                    (world_of [ACK; [x0a; x30; x31; x09; x31; x38; x31; x31;
                                     x0d]])))
     = [lit "Running blink..."; lit "Error 1811: File not found"].
Proof.
  set (w := world_of _).
  destruct (@run_reports_error sample_env (lit "/src/blink.uwc") w
              (snd (writecmd sample_env [] true 500 w)) (Some [])
              [x41; x54; x2b; x52; x55; x4e; x20; x22;
               x62; x6c; x69; x6e; x6b; x22; x0d]
              [x0a; x30; x31; x09; x31; x38; x31; x31; x0d] []
              (lit "1811" ++ [CR]) (lit "File not found")
              eq_refl eq_refl eq_refl ltac:(vm_compute; lia) eq_refl
              ltac:(discriminate) eq_refl eq_refl) as (w' & Hrun & Hout).
  rewrite Hrun. split; [reflexivity | exact Hout].
Defined.


(** ** Payloads *)

Lemma drop_while_fixed (A : Type) (f : A -> bool) (s : list A) :
  match s with [] => True | x :: _ => f x = false end -> drop_while f s = s.
Proof. destruct s as [|x s]; [reflexivity|]. cbn. now intros ->. Qed.

Lemma drop_while_head (A : Type) (f : A -> bool) (s : list A) :
  match drop_while f s with [] => True | x :: _ => f x = false end.
Proof.
  induction s as [|x s IH]; [exact I|]. cbn [drop_while].
  destruct (f x) eqn:E; [exact IH | exact E].
Qed.

(** Stripping a stripped text changes nothing. *)
Lemma strip_idempotent (s : str) : strip (strip s) = strip s.
Proof.
  unfold strip, lstrip, rstrip.
  set (x := drop_while isspace s).
  assert (Hx : match x with [] => True | c :: _ => isspace c = false end)
    by apply drop_while_head.
  set (y := drop_while isspace (rev x)).
  assert (Hy : match y with [] => True | c :: _ => isspace c = false end)
    by apply drop_while_head.
  assert (Hhead : match rev y with [] => True | c :: _ => isspace c = false end).
  { destruct (drop_while_split isspace (rev x)) as (ws & Hr & Hws & _).
    fold y in Hr.
    assert (Hxy : x = rev y ++ rev ws)
      by now rewrite <- (rev_involutive x), Hr, rev_app_distr.
    destruct (rev y) as [|c t] eqn:Ey; [exact I|].
    rewrite Hxy in Hx. exact Hx. }
  rewrite (drop_while_fixed isspace (rev y) Hhead), rev_involutive.
  now rewrite (drop_while_fixed isspace y Hy).
Qed.

Section PayloadFacts.
Variable env : Env.

(** A command that expects a response returns only from the success
    branch: its frame was written, the loop returned ASCII bytes that end
    in the terminator, and the result is the stripped text before it. *)
Lemma writecmd_returns (args : str) (timeout : Z) (w w' : World)
      (result : option str) :
  writecmd env args true timeout w = (Ok result, w') ->
  exists frame response,
    encode_ascii (at_command args) = Some frame
    /\ read_until timeout (snd (port_write frame w)) = (Ok response, w')
    /\ endswith Byte.eqb response OK_TERM = true
    /\ forallb is_ascii response = true
    /\ result = Some (strip (List.map Byte.to_N (drop_last 3 response))).
Proof.
  intros H.
  destruct (encode_ascii (at_command args)) as [frame|] eqn:E.
  - rewrite (writecmd_expect env _ _ _ E) in H.
    destruct (read_until timeout _) as [[response|e|] w2] eqn:Eread;
      try discriminate H.
    unfold classify in H.
    destruct (endswith Byte.eqb response OK_TERM) eqn:Eend.
    + unfold decode_ascii in H.
      destruct (forallb is_ascii response) eqn:Eascii; [|discriminate H].
      injection H as <- <-. exists frame, response.
      repeat split; trivial. now rewrite drop_last_map.
    + destruct (length response =? 0)%nat; [discriminate H|].
      destruct (_ && _); [|discriminate H].
      destruct (decode_utf8 _); [|discriminate H].
      destruct (get_errordesc env _); discriminate H.
  - unfold writecmd, bind, lift in H. rewrite E in H. discriminate H.
Qed.

(** X14: a command that expects a response and returns, has written its
    frame and then read, in the loop that follows the write, bytes that
    are ASCII and end in the success terminator; what it returns is a
    payload, the text of those bytes before the terminator, trimmed: it
    neither begins nor ends with white space, so that stripping it again
    changes nothing. *)
Theorem writecmd_payload_trimmed (args : str) (timeout : Z) (w w' : World)
        (result : option str) :
  writecmd env args true timeout w = (Ok result, w') ->
  exists frame response payload,
    encode_ascii (at_command args) = Some frame
    /\ read_until timeout (snd (port_write frame w)) = (Ok response, w')
    /\ endswith Byte.eqb response OK_TERM = true
    /\ forallb is_ascii response = true
    /\ payload = strip (List.map Byte.to_N (drop_last 3 response))
    /\ result = Some payload
    /\ strip payload = payload.
Proof.
  intros H.
  destruct (writecmd_returns _ _ _ H) as (frame & response & E & R & T & A & ->).
  exists frame, response, (strip (List.map Byte.to_N (drop_last 3 response))).
  repeat split; trivial. apply strip_idempotent.
Qed.
End PayloadFacts.

Lemma writecmd_payload_trimmed_witness :
  let w := world_of [[x0a; x31; x30; x09; x42; x4c; x0d; x0a; x30; x30; x0d]] in
  exists frame response payload,
    encode_ascii (at_command (lit "I 0")) = Some frame
    /\ read_until 500 (snd (port_write frame w))
       = (Ok response, snd (writecmd sample_env (lit "I 0") true 500 w))
    /\ endswith Byte.eqb response OK_TERM = true
    /\ forallb is_ascii response = true
    /\ payload = strip (List.map Byte.to_N (drop_last 3 response))
    /\ Some (lit "10" ++ [TAB] ++ lit "BL") = Some payload
    /\ strip payload = payload.
Proof.
  intros w.
  assert (H : writecmd sample_env (lit "I 0") true 500 w
              = (Ok (Some (lit "10" ++ [TAB] ++ lit "BL")),
                 snd (writecmd sample_env (lit "I 0") true 500 w)))
    by (vm_compute; reflexivity).
  exact (@writecmd_payload_trimmed sample_env (lit "I 0") 500 w _ _ H).
Defined.

(** ** Fields of a reply *)

Lemma split_nonempty (c : N) (s : str) : split N.eqb c s <> [].
Proof.
  destruct s as [|x s]; cbn [split]; [discriminate|].
  destruct (x =? c); [discriminate|].
  destruct (split N.eqb c s); discriminate.
Qed.

Lemma split_parts_clean (c : N) (s : str) :
  Forall (fun part => forallb (fun x => negb (x =? c)) part = true)
         (split N.eqb c s).
Proof.
  induction s as [|x s IH]; cbn [split]; [now repeat constructor|].
  destruct (x =? c) eqn:E; [now constructor|].
  destruct (split N.eqb c s) as [|h t]; [now repeat constructor; cbn; rewrite E|].
  inversion IH as [|? ? Hh Ht]; subst. constructor; [|exact Ht].
  cbn [forallb]. now rewrite E, Hh.
Qed.

(** The last field of a split text is what follows its last separator. *)
Lemma split_last (c : N) (s : str) :
  exists pre,
    s = pre ++ last (split N.eqb c s) []
    /\ ((pre = [] /\ split N.eqb c s = [s])
        \/ ((exists p, pre = p ++ [c])
            /\ (2 <= length (split N.eqb c s))%nat)).
Proof.
  induction s as [|x s (pre & Hs & Hpre)].
  - exists []. split; [reflexivity | now left].
  - cbn [split]. destruct (N.eqb_spec x c) as [->|Hx].
    + exists (c :: pre). split.
      * destruct Hpre as [[-> E]|[_ Hlen]].
        -- now rewrite E.
        -- destruct (split N.eqb c s) as [|h t]; [simpl in Hlen; lia|].
           cbn [last] in Hs |- *. cbn [app]. now rewrite Hs at 1.
      * right. split.
        -- destruct Hpre as [[-> _]|[(p & ->) _]];
             [now exists [] | now exists (c :: p)].
        -- destruct Hpre as [[_ E]|[_ Hlen]]; [rewrite E|]; simpl; lia.
    + destruct Hpre as [[-> E]|[(p & ->) Hlen]].
      * rewrite E. exists []. split; [reflexivity | now left].
      * destruct (split N.eqb c s) as [|h [|h2 t]]; try (simpl in Hlen; lia).
        exists (x :: p ++ [c]). split.
        -- cbn [last] in Hs |- *. cbn [app]. now rewrite Hs at 1.
        -- right. split; [now exists (x :: p) | simpl; lia].
Qed.

Lemma last_Forall (A : Type) (P : A -> Prop) (l : list A) (d : A) :
  Forall P l -> P d -> P (last l d).
Proof.
  intros Hl Hd. induction Hl as [|x l Hx Hl IH]; [exact Hd|].
  destruct l; [exact Hx | exact IH].
Qed.

Section IdentifyFacts.
Variable env : Env.

(** [read_param] keeps standard output as it is. *)
Lemma read_param_stdout (param : str) (w : World) :
  stdout (snd (read_param env param w)) = stdout w.
Proof.
  unfold read_param, bind, ret.
  pose proof (writecmd_stdout env (lit "I " ++ param) true 500 w) as H.
  now destruct (writecmd env (lit "I " ++ param) true 500 w) as [[r|e|] w1].
Qed.

(** X15: the value [read_param] returns is the last tab-separated field of
    the payload of its [I] command: it holds no tab, and the payload is
    that value, preceded by nothing or by a text that ends in a tab. *)
Theorem read_param_last_field (param value : str) (w w' : World) :
  read_param env param w = (Ok value, w') ->
  exists payload before,
    writecmd env (lit "I " ++ param) true 500 w = (Ok (Some payload), w')
    /\ payload = before ++ value
    /\ (before = [] \/ exists p, before = p ++ [TAB])
    /\ forallb (fun c => negb (c =? TAB)) value = true.
Proof.
  unfold read_param, bind, ret. intros H.
  destruct (writecmd env (lit "I " ++ param) true 500 w) as [[r|e|] w1] eqn:E;
    try discriminate H.
  destruct (writecmd_returns env _ _ _ E) as (_ & response & _ & _ & _ & _ & ->).
  set (payload := strip _) in *.
  injection H as <- <-.
  destruct (split_last TAB payload) as (before & Hp & Hb).
  exists payload, before. repeat split; trivial.
  - destruct Hb as [[-> _]|[Hb _]]; [now left | now right].
  - apply (@last_Forall str
             (fun part => forallb (fun c => negb (c =? TAB)) part = true));
      [apply split_parts_clean | reflexivity].
Qed.

Lemma issues_read_param (param : str) :
  issues (read_param env param) [lit "I " ++ param].
Proof.
  unfold read_param.
  apply (@issues_bind (option str) str _ _ [lit "I " ++ param] []);
    [apply issues_writecmd | intros r; now apply issues_nothing].
Qed.

(** X16: [detect_model] writes the frames of [I 0] and [I 13], in this
    order (a prefix of them in a run that fails); when it returns, the
    model identifier is the first value, an underscore, and the second
    value with its spaces turned into underscores, and the line printed
    shows both values as the device sent them. *)
Theorem detect_model_identifier (w w' : World) (r : result str) :
  detect_model env w = (r, w') ->
  (exists k frames,
      (k <= 2)%nat
      /\ Forall2 (fun c f => encode_ascii (at_command c) = Some f)
                 (firstn k [lit "I 0"; lit "I 13"]) frames
      /\ tx w' = tx w ++ frames
      /\ (forall m, r = Ok m -> k = 2%nat))
  /\ (forall identifier, r = Ok identifier ->
      exists model revision w1 w2,
        read_param env (lit "0") w = (Ok model, w1)
        /\ read_param env (lit "13") w1 = (Ok revision, w2)
        /\ identifier = model ++ lit "_" ++ replace_char 32 95 revision
        /\ forallb (fun c => negb (c =? 32)) (replace_char 32 95 revision) = true
        /\ stdout w'
           = stdout w ++ [lit "Detected model " ++ model ++ lit " " ++ revision]).
Proof.
  intros H. split.
  - assert (Hi : issues (detect_model env) [lit "I 0"; lit "I 13"]).
    { unfold detect_model.
      apply (@issues_bind str str _ _ [lit "I 0"] [lit "I 13"]);
        [apply issues_read_param | intros model].
      apply (@issues_bind str str _ _ [lit "I 13"] []);
        [apply issues_read_param | intros revision].
      now apply issues_nothing. }
    exact (Hi _ _ _ H).
  - intros identifier ->. unfold detect_model in H. unfold bind at 1 in H.
    pose proof (read_param_stdout (lit "0") w) as Hs1.
    destruct (read_param env (lit "0") w) as [[model|e|] w1] eqn:E1;
      try discriminate H.
    unfold bind at 1 in H.
    pose proof (read_param_stdout (lit "13") w1) as Hs2.
    destruct (read_param env (lit "13") w1) as [[revision|e|] w2] eqn:E2;
      try discriminate H.
    unfold bind, print, ret in H. injection H as <- <-.
    exists model, revision, w1, w2. cbn [snd stdout] in *.
    split; [reflexivity|]. split; [exact E2|]. split; [reflexivity|].
    split; [|now rewrite Hs2, Hs1].
    unfold replace_char. clear. induction revision as [|c rev IH]; [reflexivity|].
    cbn [List.map forallb]. rewrite IH, andb_true_r.
    destruct (N.eqb_spec c 32) as [->|Hc]; [reflexivity|].
    now apply negb_true_iff, N.eqb_neq.
Qed.
End IdentifyFacts.

Lemma read_param_last_field_witness :
  let w := world_of [[x0a; x31; x30; x09; x30; x09; x42; x4c; x0d; x0a;
                      x30; x30; x0d]] in
  exists payload before,
    writecmd sample_env (lit "I " ++ lit "0") true 500 w
    = (Ok (Some payload), snd (read_param sample_env (lit "0") w))
    /\ payload = before ++ lit "BL"
    /\ (before = [] \/ exists p, before = p ++ [TAB])
    /\ forallb (fun c => negb (c =? TAB)) (lit "BL") = true.
Proof.
  intros w.
  apply (@read_param_last_field sample_env (lit "0") (lit "BL") w
           (snd (read_param sample_env (lit "0") w))).
  vm_compute. reflexivity.
Defined.

Lemma detect_model_identifier_witness :
  let w := world_of [[x0a; x31; x30; x09; x30; x09; x42; x4c; x36; x35; x32;
                      x0d; x0a; x30; x30; x0d];
                     [x0a; x31; x30; x09; x31; x33; x09; x31; x2e; x35; x20;
                      x72; x32; x0d; x0a; x30; x30; x0d]] in
  fst (detect_model sample_env w) = Ok (lit "BL652_1.5_r2")
  /\ stdout (snd (detect_model sample_env w))
     = [lit "Detected model BL652 1.5 r2"].
Proof.
  intros w.
  destruct (@detect_model_identifier sample_env w
              (snd (detect_model sample_env w)) (Ok (lit "BL652_1.5_r2")))
    as [_ H]; [vm_compute; reflexivity|].
  destruct (H _ eq_refl) as (model & revision & w1 & w2 & H1 & H2 & _ & _ & Hs).
  vm_compute in H1. injection H1 as <- <-.
  vm_compute in H2. injection H2 as <- _.
  split; [vm_compute; reflexivity | exact Hs].
Defined.

(** ** What the methods print *)

Section ReportFacts.
Variable env : Env.

(** X17: [delete] writes the frame of one delete command for the device
    name of its argument, with no trailing plus sign; it prints its
    [Removing] line in every run and its [Deleted.] line only when the
    command succeeded. *)
Theorem delete_report (filename : str) (w w' : World) (r : result unit) :
  delete env filename w = (r, w') ->
  let command := lit "+DEL " ++ quoted (get_devicename filename) in
  stdout w'
  = stdout w ++ [lit "Removing " ++ get_devicename filename ++ lit "..."]
    ++ match r with Ok _ => [lit "Deleted."] | _ => [] end
  /\ (forall frame, encode_ascii (at_command command) = Some frame ->
                    tx w' = tx w ++ [frame])
  /\ (encode_ascii (at_command command) = None ->
      tx w' = tx w /\ r = Raise UnicodeEncodeError).
Proof.
  intros H command. unfold delete in H. fold command in H.
  unfold bind at 1 in H. cbn [print] in H. unfold bind at 1 in H.
  set (w0 := {| rx := rx w; tx := tx w; clock := clock w;
                stdout := stdout w ++ [_] |}) in H.
  pose proof (writecmd_stdout env command true 500 w0) as Hout.
  split; [|split].
  - destruct (writecmd env command true 500 w0) as [[p|e|] w1];
      unfold print in H; injection H as <- <-; cbn [snd stdout] in *;
      rewrite ?Hout; unfold w0; cbn [stdout];
      now rewrite <- ?app_assoc, ?app_nil_r.
  - intros frame Hf.
    pose proof (writecmd_tx env command true 500 w0 Hf) as Htx.
    destruct (writecmd env command true 500 w0) as [[p|e|] w1];
      unfold print in H; injection H as <- <-; exact Htx.
  - intros Hf. unfold writecmd, bind, lift in H. rewrite Hf in H.
    cbn [or_raise] in H. injection H as <- <-. now split.
Qed.

(** X18: [format] writes the frames of the clear command, an empty
    command, the factory reset and an empty command, in this order: all
    four when it returns, a prefix of them when it fails. *)
Theorem format_command_sequence (w w' : World) (r : result unit) :
  format env w = (r, w') ->
  exists k frames,
    (k <= 4)%nat
    /\ Forall2 (fun c f => encode_ascii (at_command c) = Some f)
               (firstn k [lit "Z"; []; lit "&F 1"; []]) frames
    /\ tx w' = tx w ++ frames
    /\ (r = Ok tt -> k = 4%nat).
Proof.
  intros H.
  assert (Hi : issues (format env) [lit "Z"; []; lit "&F 1"; []]).
  { unfold format, format_steps.
    apply (@issues_bind unit unit _ _ [lit "Z"; []; lit "&F 1"] [[]]).
    - apply (@issues_bind unit unit _ _ [] [lit "Z"; []; lit "&F 1"]);
        [now apply issues_nothing | intros _].
      apply (@issues_bind (option str) unit _ _ [lit "Z"] [[]; lit "&F 1"]);
        [apply issues_writecmd | intros _].
      apply (@issues_bind (option str) unit _ _ [[]] [lit "&F 1"]);
        [apply issues_writecmd | intros _].
      apply (@issues_bind (option str) unit _ _ [lit "&F 1"] []);
        [apply issues_writecmd | intros _].
      apply (@issues_bind unit unit _ _ [] []);
        [now apply issues_nothing | intros _].
      apply (@issues_bind bytes unit _ _ [] []);
        [|intros _; now apply issues_nothing].
      apply issues_nothing. intros w0. unfold port_read.
      now destruct (serial_read 1024 (rx w0)).
    - intros _.
      apply (@issues_bind (option str) unit _ _ [[]] []);
        [apply issues_writecmd | intros _; now apply issues_nothing]. }
  destruct (Hi _ _ _ H) as (k & frames & Hk & Hf & Ht & Hall).
  exists k, frames. repeat split; trivial. intros ->. exact (Hall tt eq_refl).
Qed.



End ReportFacts.

Lemma delete_report_witness :
  let w := world_of [[x0a; x30; x31; x09; x31; x38; x31; x31; x0d]] in
  stdout (snd (delete sample_env (lit "/src/blink.uwc") w))
  = [lit "Removing blink..."]
  /\ List.map (List.map Byte.to_N)
       (tx (snd (delete sample_env (lit "/src/blink.uwc") w)))
     = [lit "AT+DEL " ++ quoted (lit "blink") ++ [CR]].
Proof.
  intros w.
  destruct (@delete_report sample_env (lit "/src/blink.uwc") w
              (snd (delete sample_env (lit "/src/blink.uwc") w))
              (Raise (RuntimeError
                        (DeviceError (lit "1811") (lit "File not found")))))
    as (Hout & Htx & _); [vm_compute; reflexivity|].
  split; [exact Hout|].
  rewrite (Htx [x41; x54; x2b; x44; x45; x4c; x20; x22;
                x62; x6c; x69; x6e; x6b; x22; x0d]);
    [reflexivity | vm_compute; reflexivity].
Defined.

Lemma format_command_sequence_witness :
  List.map (List.map Byte.to_N)
    (tx (snd (format sample_env (world_of [ACK; ACK; ACK; ACK]))))
  = [lit "AT Z" ++ [CR]; lit "AT " ++ [CR]; lit "AT &F 1" ++ [CR];
     lit "AT " ++ [CR]].
Proof.
  set (w := world_of _).
  destruct (@format_command_sequence sample_env w (snd (format sample_env w))
              (Ok tt)) as (k & frames & _ & Hf & Ht & Hk);
    [vm_compute; reflexivity|].
  rewrite (Hk eq_refl) in Hf. rewrite Ht. cbn [firstn] in Hf.
  inversion Hf as [|c1 f1 l1 r1 E1 Hf1]; subst.
  inversion Hf1 as [|c2 f2 l2 r2 E2 Hf2]; subst.
  inversion Hf2 as [|c3 f3 l3 r3 E3 Hf3]; subst.
  inversion Hf3 as [|c4 f4 l4 r4 E4 Hf4]; subst.
  inversion Hf4; subst.
  vm_compute in E1, E2, E3, E4.
  injection E1 as <-. injection E2 as <-. injection E3 as <-. injection E4 as <-.
  reflexivity.
Defined.


(** ** More of the include preprocessor *)


Section IncludeFacts.
Variable env : Env.


(** X21: a document whose first directive names a missing file raises the
    missing-file error with the absolute path, at every depth and without
    reading any file; the same holds when the missing file is named by
    the file a first directive includes: the error comes out unchanged. *)
Theorem do_include_missing (depth : nat) (file dirname : str)
        (m : include_re.Match) :
  include_re.search file = Some m ->
  let include_path :=
    abspath env (os_path.join dirname (include_re.group1 m)) in
  (path_exists env include_path = false ->
   do_include env depth file dirname
   = Raise (RuntimeError (IncludedFileMissing include_path)))
  /\ (forall file_data m',
         path_exists env include_path = true ->
         read_text env include_path = Some file_data ->
         include_re.search file_data = Some m' ->
         let inner_path :=
           abspath env (os_path.join (os_path.dirname include_path)
                                     (include_re.group1 m')) in
         path_exists env inner_path = false ->
         do_include env (S depth) file dirname
         = Raise (RuntimeError (IncludedFileMissing inner_path))).
Proof.
  intros Hm include_path. split.
  - intros Hex. destruct depth; cbn [do_include];
      rewrite Hm; fold include_path; now rewrite Hex.
  - intros file_data m' Hex Hread Hm' inner_path Hin.
    cbn [do_include]. rewrite Hm. fold include_path. rewrite Hex, Hread.
    cbn [negb].
    assert (H1 : do_include env depth file_data (os_path.dirname include_path)
                 = Raise (RuntimeError (IncludedFileMissing inner_path))).
    { destruct depth; cbn [do_include]; rewrite Hm'; fold inner_path;
        now rewrite Hin. }
    now rewrite H1.
Qed.

(** X22: a file whose first directive names the file itself is never
    expanded: however deep the interpreter lets the calls nest,
    [do_include] returns no document; the call ends in an exception. *)
Theorem do_include_self_never_returns (depth : nat) (file_data dirname : str)
        (m : include_re.Match) :
  include_re.search file_data = Some m ->
  let include_path :=
    abspath env (os_path.join dirname (include_re.group1 m)) in
  path_exists env include_path = true ->
  read_text env include_path = Some file_data ->
  os_path.dirname include_path = dirname ->
  exists e, do_include env depth file_data dirname = Raise e.
Proof.
  intros Hm include_path Hex Hread Hdir.
  induction depth as [|depth (e & IH)]; cbn [do_include];
    rewrite Hm; fold include_path; rewrite Hex, Hread; cbn [negb];
    [now exists RecursionError|].
  rewrite Hdir, IH. now exists e.
Qed.
End IncludeFacts.


Lemma do_include_missing_witness :
  do_include sample_env 3 (lit "#include " ++ quoted (lit "gone.sb")) (lit "/src")
  = Raise (RuntimeError (IncludedFileMissing (lit "/src/gone.sb")))
  /\ do_include loop_env 3 (lit "#include " ++ quoted (lit "sub/outer.sb"))
                 (lit "/src")
     = Raise (RuntimeError (IncludedFileMissing (lit "/src/sub/gone.sb"))).
Proof.
  split.
  - apply (proj1 (@do_include_missing sample_env 3
                    (lit "#include " ++ quoted (lit "gone.sb")) (lit "/src")
                    {| include_re.m_start := 0; include_re.m_end := 18;
                       include_re.group1 := lit "gone.sb" |} eq_refl)).
    reflexivity.
  - exact (proj2 (@do_include_missing loop_env 2
                    (lit "#include " ++ quoted (lit "sub/outer.sb")) (lit "/src")
                    {| include_re.m_start := 0; include_re.m_end := 23;
                       include_re.group1 := lit "sub/outer.sb" |} eq_refl)
                 outer_source
                 {| include_re.m_start := 0; include_re.m_end := 18;
                    include_re.group1 := lit "gone.sb" |}
                 eq_refl eq_refl eq_refl eq_refl).
Defined.

Lemma do_include_self_never_returns_witness :
  exists e, do_include loop_env 40 loop_source (lit "/src") = Raise e.
Proof.
  assert (Hm : include_re.search loop_source
               = Some {| include_re.m_start := 0; include_re.m_end := 18;
                         include_re.group1 := lit "loop.sb" |})
    by (vm_compute; reflexivity).
  apply (@do_include_self_never_returns loop_env 40 loop_source (lit "/src") _ Hm).
  - vm_compute. reflexivity.
  - vm_compute. reflexivity.
  - vm_compute. reflexivity.
Defined.
